(** * koatsume: the peer-session engine of [network.py]

    A shallow embedding of the UDP frame codec ([UDPPacket]), the per-peer
    session ([PeerConnection]) and the registry ([NetworkManager]) of
    [src/network.py], followed by the properties of the specification that
    are settled against it.

    Conventions.  Python integers are unbounded, hence [Z].  A [bytes]
    object is a [list byte].  Wall-clock readings ([time.time()]) are
    floats, kept as the rationals they denote; a difference of two of
    them is rounded ([FloatArith]).  A Python exception is the [Raise]
    constructor of [result].
    Each thread body is a transition function driven by what the thread
    observes of the rest of the world (the shared [running] flag, the
    outcome of a socket call, the clock); what it does to the outside is
    recorded as a list of events in program order. *)

From Stdlib Require Import ZArith NArith List Lia Bool QArith.
From Stdlib Require Import Strings.Byte.
From stdpp Require Import base option list strings gmap.

Local Open Scope Z_scope.

(** ** Exceptions *)

Inductive exn : Type :=
  | StructError      (* struct.error *)
  | ValueError       (* tuple unpacking of the wrong arity *)
  | AttributeError   (* attribute lookup on a value without it *)
  | OSError.         (* socket errors, socket.timeout included *)

Inductive result (A : Type) : Type :=
  | Ok (a : A)
  | Raise (e : exn).
Arguments Ok {A} a.
Arguments Raise {A} e.

Definition rbind {A B : Type} (r : result A) (k : A -> result B) : result B :=
  match r with
  | Ok a => k a
  | Raise e => Raise e
  end.

Notation "'try!' x ':=' r 'in' k" := (rbind r (fun x => k))
  (at level 10, x name, r at level 100, k at level 200).

(** ** The [struct] module, for the format characters the program uses *)

Module Struct.

(** A format character.  All formats of the program start with ["!"]:
    network byte order, standard sizes, no padding. *)
Inductive code : Type :=
  | fmt_H   (* unsigned short, 2 bytes *)
  | fmt_B   (* unsigned char, 1 byte *)
  | fmt_b.  (* signed char, 1 byte *)

Definition code_size (c : code) : nat :=
  match c with
  | fmt_H => 2
  | fmt_B => 1
  | fmt_b => 1
  end.

Fixpoint calcsize (fmt : list code) : nat :=
  match fmt with
  | [] => 0
  | c :: fmt' => (code_size c + calcsize fmt')%nat
  end.

Definition byte_to_Z (b : byte) : Z := Z.of_N (Byte.to_N b).

Definition byte_of_Z (z : Z) : byte :=
  match Byte.of_N (Z.to_N (z mod 256)) with
  | Some b => b
  | None => x00
  end.

(** The values a format character accepts; [struct.pack] raises
    [struct.error] for any other. *)
Definition in_range (c : code) (v : Z) : bool :=
  match c with
  | fmt_H => (0 <=? v) && (v <=? 65535)
  | fmt_B => (0 <=? v) && (v <=? 255)
  | fmt_b => (-128 <=? v) && (v <=? 127)
  end.

(** Big-endian encoding; a signed char is stored in two's complement. *)
Definition encode (c : code) (v : Z) : list byte :=
  match c with
  | fmt_H => [byte_of_Z (Z.shiftr v 8); byte_of_Z v]
  | fmt_B => [byte_of_Z v]
  | fmt_b => [byte_of_Z v]
  end.

Definition be_uint (bs : list byte) : Z :=
  fold_left (fun acc b => acc * 256 + byte_to_Z b) bs 0.

Definition decode (c : code) (bs : list byte) : Z :=
  match c with
  | fmt_H => be_uint bs
  | fmt_B => be_uint bs
  | fmt_b => let u := be_uint bs in if u <? 128 then u else u - 256
  end.

Fixpoint pack (fmt : list code) (vals : list Z) : result (list byte) :=
  match fmt, vals with
  | [], [] => Ok []
  | c :: fmt', v :: vals' =>
      if in_range c v
      then try! rest := pack fmt' vals' in Ok (encode c v ++ rest)
      else Raise StructError
  | _, _ => Raise StructError
  end.

Fixpoint decode_all (fmt : list code) (data : list byte) : list Z :=
  match fmt with
  | [] => []
  | c :: fmt' =>
      decode c (take (code_size c) data)
        :: decode_all fmt' (drop (code_size c) data)
  end.

(** [struct.unpack] wants a buffer of exactly [calcsize fmt] bytes. *)
Definition unpack (fmt : list code) (data : list byte) : result (list Z) :=
  if Nat.eqb (length data) (calcsize fmt)
  then Ok (decode_all fmt data)
  else Raise StructError.

End Struct.

(** Python's [data[a:b]] for [0 <= a <= b]. *)
Definition slice {A : Type} (a b : nat) (l : list A) : list A :=
  take (b - a) (drop a l).

(** ** [class UDPPacket] *)

Module UDPPacket.

Definition TYPE_HEARTBEAT : Z := 0.
Definition TYPE_MOUSE_ABSOLUTE : Z := 1.

Definition HEADER_FORMAT : list Struct.code := [Struct.fmt_H; Struct.fmt_B].
Definition MOUSE_FORMAT : list Struct.code :=
  [Struct.fmt_H; Struct.fmt_H; Struct.fmt_b; Struct.fmt_b; Struct.fmt_B].

Definition HEADER_SIZE : nat := Struct.calcsize HEADER_FORMAT.
Definition MOUSE_SIZE : nat := Struct.calcsize MOUSE_FORMAT.

(** The dictionary [unpack] returns; its ['type'] entry is the
    constructor. *)
Inductive packet : Type :=
  | Heartbeat (sequence : Z)
  | MouseAbsolute (sequence x y wheel_x wheel_y buttons : Z).

Definition pack_heartbeat (sequence : Z) : result (list byte) :=
  Struct.pack HEADER_FORMAT [sequence; TYPE_HEARTBEAT].

Definition pack_mouse_absolute (sequence x y wheel_x wheel_y buttons : Z)
  : result (list byte) :=
  try! header := Struct.pack HEADER_FORMAT [sequence; TYPE_MOUSE_ABSOLUTE] in
  try! payload := Struct.pack MOUSE_FORMAT [x; y; wheel_x; wheel_y; buttons] in
  Ok (header ++ payload).

Definition unpack (data : list byte) : result (option packet) :=
  if Nat.ltb (length data) HEADER_SIZE then Ok None
  else
    try! hdr := Struct.unpack HEADER_FORMAT (take HEADER_SIZE data) in
    match hdr with
    | [sequence; packet_type] =>
        if packet_type =? TYPE_HEARTBEAT then Ok (Some (Heartbeat sequence))
        else if packet_type =? TYPE_MOUSE_ABSOLUTE then
          if Nat.ltb (length data) (HEADER_SIZE + MOUSE_SIZE) then Ok None
          else
            try! fields := Struct.unpack MOUSE_FORMAT
                        (slice HEADER_SIZE (HEADER_SIZE + MOUSE_SIZE) data) in
            match fields with
            | [x; y; wheel_x; wheel_y; buttons] =>
                Ok (Some (MouseAbsolute sequence x y wheel_x wheel_y buttons))
            | _ => Raise ValueError
            end
        else Ok None
    | _ => Raise ValueError
    end.

End UDPPacket.

(** ** What a thread observes, and what it does *)

Definition Qltb (a b : Q) : bool := negb (Qle_bool b a).

(** Python floats.  [time.time()] returns an IEEE double, and the
    difference of two doubles is the exact difference rounded to the
    nearest double (clock readings are far from the range where it
    would overflow).  The rounding itself is not computed here: it is
    taken with the facts about it that are used, that it is monotone and
    that it leaves 1 and 2, which are doubles, as they are. *)
Class FloatArith : Type := {
  fround : Q -> Q;
  fround_mono : forall a b : Q, (a <= b)%Q -> (fround a <= fround b)%Q;
  fround_1 : (fround 1 == 1)%Q;
  fround_2 : (fround 2 == 2)%Q
}.

(** [a - b] on floats. *)
Definition fsub `{F : FloatArith} (a b : Q) : Q := fround (a - b).

(** A callable stored in a session or in the manager. *)
Inductive callback : Type :=
  | HostCallback (id : nat)          (* supplied by the host application *)
  | ManagerHandleMouseData           (* NetworkManager._handle_mouse_data *)
  | ManagerHandlePeerDisconnect.     (* NetworkManager._handle_peer_disconnect *)

Inductive socket : Type :=
  | SockDgram     (* socket.socket(AF_INET, SOCK_DGRAM) *)
  | SockStream.   (* socket.socket(AF_INET, SOCK_STREAM) *)

Inductive task : Type :=
  | UdpTransmitLoop | UdpReceiveLoop | TcpConnectAndSync | CheckLiveness.

(** Effects on the outside world, in program order.  [print] calls are
    left out. *)
Inductive event : Type :=
  | EvBind (port : Z)                       (* udp_socket.bind(('0.0.0.0', port)) *)
  | EvSpawn (target : task)                 (* Thread(target=...).start() *)
  | EvConnect (address : string) (port : Z) (* tcp_socket.connect returned *)
  | EvSendall (data : list byte)            (* tcp_socket.sendall returned *)
  | EvSetConnected (b : bool)               (* self.connected = b *)
  | EvRecv (chunk : list byte)              (* tcp_socket.recv returned chunk *)
  | EvHandshakeConsumed (line : list byte)  (* the break of line 238 *)
  | EvClose (s : socket)                    (* close() on a socket *)
  | EvSleep (seconds : Q)                   (* time.sleep *)
  | EvSendTo (packet : list byte) (address : string) (port : Z)
  | EvMouseData (cb : callback) (peer : string) (pkt : UDPPacket.packet)
  | EvDisconnect (cb : callback) (peer : string).

(** What one step of a thread sees of the rest of the world: the value of
    the shared [running] flag if the step reads it, whether the socket
    call of the step raises, the bytes a [recv] returns, the clock, and
    the values of [self.rx_packets], [self.rx_bytes] and
    [self.last_rx_time], fields the receive thread writes, if the step
    reads them. *)
Record world : Type := mkWorld {
  w_running : bool;
  w_raises : bool;
  w_chunk : list byte;
  w_now : Q;
  w_rx_packets : Z;
  w_rx_bytes : Z;
  w_last_rx_time : Q
}.

(** ** [class TCPMessage] *)

Module TCPMessage.

#[local] Set Warnings "-register-all".

(** Values of the [json] module. *)
Inductive json : Type :=
  | JNull
  | JBool (b : bool)
  | JNumber (q : Q)
  | JString (s : string)
  | JArray (items : list json)
  | JObject (entries : list (string * json)).

(** The [json] module itself is outside the program. *)
Class Json : Type := {
  json_dumps : json -> list byte;             (* json.dumps(v).encode() *)
  json_loads : list byte -> result json       (* json.loads(b.decode()) *)
}.

Definition newline : byte := x0a.

Definition JInt (z : Z) : json := JNumber (inject_Z z).

Definition pack_handshake `{J : Json} (tcp_port udp_port : Z) (username : string)
  : list byte :=
  json_dumps (JObject [("type"%string, JString "handshake");
                       ("tcp_port"%string, JInt tcp_port);
                       ("udp_port"%string, JInt udp_port);
                       ("username"%string, JString username)])
    ++ [newline].

Definition pack_sync `{J : Json} (rx_packets rx_bytes : Z) (last_rx_time : Q)
  : list byte :=
  json_dumps (JObject [("type"%string, JString "sync");
                       ("rx_packets"%string, JInt rx_packets);
                       ("rx_bytes"%string, JInt rx_bytes);
                       ("last_rx_time"%string, JNumber last_rx_time)])
    ++ [newline].

Definition unpack `{J : Json} (data : list byte) : option json :=
  match json_loads data with
  | Ok v => Some v
  | Raise _ => None
  end.

(** Truth value of a decoded message ([if msg and ...]). *)
Definition truthy (v : json) : bool :=
  match v with
  | JNull => false
  | JBool b => b
  | JNumber q => negb (Qeq_bool q 0)
  | JString s => negb (String.eqb s "")
  | JArray items => negb (Nat.eqb (length items) 0)
  | JObject entries => negb (Nat.eqb (length entries) 0)
  end.

Fixpoint assoc (key : string) (entries : list (string * json)) : option json :=
  match entries with
  | [] => None
  | (k, v) :: rest => if String.eqb k key then Some v else assoc key rest
  end.

(** [msg.get(key)]: only a dictionary has the method. *)
Definition get (msg : json) (key : string) : result (option json) :=
  match msg with
  | JObject entries => Ok (assoc key entries)
  | _ => Raise AttributeError
  end.

(** [v == 'handshake'] for the result of [get]. *)
Definition is_str (v : option json) (s : string) : bool :=
  match v with
  | Some (JString s') => String.eqb s' s
  | _ => false
  end.

End TCPMessage.

(** ** [class PeerConnection] *)

Module PeerConnection.

(** The thread handles are left out; [start] records the threads it
    launches as events. *)
Record t : Type := mk {
  peer_name : string;
  peer_address : string;
  tcp_port : Z;
  udp_port : Z;
  local_tcp_port : Z;
  local_udp_port : Z;
  username : string;
  on_mouse_data : option callback;
  on_disconnect : option callback;
  running : bool;
  connected : bool;
  tx_sequence : Z;
  rx_packets : Z;
  rx_bytes : Z;
  last_tx_time : Q;
  last_rx_time : Q;
  tcp_socket : option socket;
  udp_socket : option socket;
  mouse_x : Z;
  mouse_y : Z;
  mouse_wheel_x : Z;
  mouse_wheel_y : Z;
  mouse_buttons : Z
}.

(** [__init__] *)
Definition init (peer_name peer_address : string)
    (tcp_port udp_port local_tcp_port local_udp_port : Z)
    (username : string) (on_mouse_data on_disconnect : option callback) : t :=
  {| peer_name := peer_name;
     peer_address := peer_address;
     tcp_port := tcp_port;
     udp_port := udp_port;
     local_tcp_port := local_tcp_port;
     local_udp_port := local_udp_port;
     username := username;
     on_mouse_data := on_mouse_data;
     on_disconnect := on_disconnect;
     running := false;
     connected := false;
     tx_sequence := 0;
     rx_packets := 0;
     rx_bytes := 0;
     last_tx_time := 0%Q;
     last_rx_time := 0%Q;
     tcp_socket := None;
     udp_socket := None;
     mouse_x := 0;
     mouse_y := 0;
     mouse_wheel_x := 0;
     mouse_wheel_y := 0;
     mouse_buttons := 0 |}.

Definition set_running (b : bool) (self : t) : t :=
  {| peer_name := peer_name self; peer_address := peer_address self;
     tcp_port := tcp_port self; udp_port := udp_port self;
     local_tcp_port := local_tcp_port self;
     local_udp_port := local_udp_port self; username := username self;
     on_mouse_data := on_mouse_data self;
     on_disconnect := on_disconnect self; running := b;
     connected := connected self; tx_sequence := tx_sequence self;
     rx_packets := rx_packets self; rx_bytes := rx_bytes self;
     last_tx_time := last_tx_time self; last_rx_time := last_rx_time self;
     tcp_socket := tcp_socket self; udp_socket := udp_socket self;
     mouse_x := mouse_x self; mouse_y := mouse_y self;
     mouse_wheel_x := mouse_wheel_x self;
     mouse_wheel_y := mouse_wheel_y self;
     mouse_buttons := mouse_buttons self |}.

Definition set_connected (b : bool) (self : t) : t :=
  {| peer_name := peer_name self; peer_address := peer_address self;
     tcp_port := tcp_port self; udp_port := udp_port self;
     local_tcp_port := local_tcp_port self;
     local_udp_port := local_udp_port self; username := username self;
     on_mouse_data := on_mouse_data self;
     on_disconnect := on_disconnect self; running := running self;
     connected := b; tx_sequence := tx_sequence self;
     rx_packets := rx_packets self; rx_bytes := rx_bytes self;
     last_tx_time := last_tx_time self; last_rx_time := last_rx_time self;
     tcp_socket := tcp_socket self; udp_socket := udp_socket self;
     mouse_x := mouse_x self; mouse_y := mouse_y self;
     mouse_wheel_x := mouse_wheel_x self;
     mouse_wheel_y := mouse_wheel_y self;
     mouse_buttons := mouse_buttons self |}.

Definition set_tcp_socket (s : option socket) (self : t) : t :=
  {| peer_name := peer_name self; peer_address := peer_address self;
     tcp_port := tcp_port self; udp_port := udp_port self;
     local_tcp_port := local_tcp_port self;
     local_udp_port := local_udp_port self; username := username self;
     on_mouse_data := on_mouse_data self;
     on_disconnect := on_disconnect self; running := running self;
     connected := connected self; tx_sequence := tx_sequence self;
     rx_packets := rx_packets self; rx_bytes := rx_bytes self;
     last_tx_time := last_tx_time self; last_rx_time := last_rx_time self;
     tcp_socket := s; udp_socket := udp_socket self;
     mouse_x := mouse_x self; mouse_y := mouse_y self;
     mouse_wheel_x := mouse_wheel_x self;
     mouse_wheel_y := mouse_wheel_y self;
     mouse_buttons := mouse_buttons self |}.

Definition set_udp_socket (s : option socket) (self : t) : t :=
  {| peer_name := peer_name self; peer_address := peer_address self;
     tcp_port := tcp_port self; udp_port := udp_port self;
     local_tcp_port := local_tcp_port self;
     local_udp_port := local_udp_port self; username := username self;
     on_mouse_data := on_mouse_data self;
     on_disconnect := on_disconnect self; running := running self;
     connected := connected self; tx_sequence := tx_sequence self;
     rx_packets := rx_packets self; rx_bytes := rx_bytes self;
     last_tx_time := last_tx_time self; last_rx_time := last_rx_time self;
     tcp_socket := tcp_socket self; udp_socket := s;
     mouse_x := mouse_x self; mouse_y := mouse_y self;
     mouse_wheel_x := mouse_wheel_x self;
     mouse_wheel_y := mouse_wheel_y self;
     mouse_buttons := mouse_buttons self |}.

Definition set_tx_sequence (n : Z) (self : t) : t :=
  {| peer_name := peer_name self; peer_address := peer_address self;
     tcp_port := tcp_port self; udp_port := udp_port self;
     local_tcp_port := local_tcp_port self;
     local_udp_port := local_udp_port self; username := username self;
     on_mouse_data := on_mouse_data self;
     on_disconnect := on_disconnect self; running := running self;
     connected := connected self; tx_sequence := n;
     rx_packets := rx_packets self; rx_bytes := rx_bytes self;
     last_tx_time := last_tx_time self; last_rx_time := last_rx_time self;
     tcp_socket := tcp_socket self; udp_socket := udp_socket self;
     mouse_x := mouse_x self; mouse_y := mouse_y self;
     mouse_wheel_x := mouse_wheel_x self;
     mouse_wheel_y := mouse_wheel_y self;
     mouse_buttons := mouse_buttons self |}.

Definition set_last_tx_time (now : Q) (self : t) : t :=
  {| peer_name := peer_name self; peer_address := peer_address self;
     tcp_port := tcp_port self; udp_port := udp_port self;
     local_tcp_port := local_tcp_port self;
     local_udp_port := local_udp_port self; username := username self;
     on_mouse_data := on_mouse_data self;
     on_disconnect := on_disconnect self; running := running self;
     connected := connected self; tx_sequence := tx_sequence self;
     rx_packets := rx_packets self; rx_bytes := rx_bytes self;
     last_tx_time := now; last_rx_time := last_rx_time self;
     tcp_socket := tcp_socket self; udp_socket := udp_socket self;
     mouse_x := mouse_x self; mouse_y := mouse_y self;
     mouse_wheel_x := mouse_wheel_x self;
     mouse_wheel_y := mouse_wheel_y self;
     mouse_buttons := mouse_buttons self |}.

(** Lines 298-300: the bookkeeping of one received datagram. *)
Definition record_rx (len : Z) (now : Q) (self : t) : t :=
  {| peer_name := peer_name self; peer_address := peer_address self;
     tcp_port := tcp_port self; udp_port := udp_port self;
     local_tcp_port := local_tcp_port self;
     local_udp_port := local_udp_port self; username := username self;
     on_mouse_data := on_mouse_data self;
     on_disconnect := on_disconnect self; running := running self;
     connected := connected self; tx_sequence := tx_sequence self;
     rx_packets := rx_packets self + 1; rx_bytes := rx_bytes self + len;
     last_tx_time := last_tx_time self; last_rx_time := now;
     tcp_socket := tcp_socket self; udp_socket := udp_socket self;
     mouse_x := mouse_x self; mouse_y := mouse_y self;
     mouse_wheel_x := mouse_wheel_x self;
     mouse_wheel_y := mouse_wheel_y self;
     mouse_buttons := mouse_buttons self |}.

(** [update_mouse_state]: the five fields are overwritten with the
    arguments as they are. *)
Definition update_mouse_state (x y wheel_x wheel_y buttons : Z) (self : t) : t :=
  {| peer_name := peer_name self; peer_address := peer_address self;
     tcp_port := tcp_port self; udp_port := udp_port self;
     local_tcp_port := local_tcp_port self;
     local_udp_port := local_udp_port self; username := username self;
     on_mouse_data := on_mouse_data self;
     on_disconnect := on_disconnect self; running := running self;
     connected := connected self; tx_sequence := tx_sequence self;
     rx_packets := rx_packets self; rx_bytes := rx_bytes self;
     last_tx_time := last_tx_time self; last_rx_time := last_rx_time self;
     tcp_socket := tcp_socket self; udp_socket := udp_socket self;
     mouse_x := x; mouse_y := y; mouse_wheel_x := wheel_x;
     mouse_wheel_y := wheel_y; mouse_buttons := buttons |}.

(** [start]: [bind_raises] says whether binding the UDP socket fails
    (port in use); the exception then leaves [start] before any thread
    is launched. *)
Definition start (bind_raises : bool) (self : t)
  : t * list event * result unit :=
  let self := set_udp_socket (Some SockDgram) (set_running true self) in
  if bind_raises then (self, [], Raise OSError)
  else (self,
        [EvBind (local_udp_port self);
         EvSpawn UdpTransmitLoop; EvSpawn UdpReceiveLoop;
         EvSpawn TcpConnectAndSync; EvSpawn CheckLiveness],
        Ok tt).

Definition close_of (s : option socket) : list event :=
  match s with
  | Some k => [EvClose k]
  | None => []
  end.

(** [stop] *)
Definition stop (self : t) : t * list event :=
  (set_connected false (set_running false self),
   close_of (tcp_socket self) ++ close_of (udp_socket self)).

(** *** [_udp_transmit_loop] (lines 266-290) *)

(** One pass through the body of the loop.  [struct.error] from packing
    and a socket error from [sendto] both land in the handler, which
    sleeps 0.1s and leaves the object as it is. *)
Definition udp_transmit_iter (w : world) (self : t) : t * list event :=
  match UDPPacket.pack_mouse_absolute (tx_sequence self)
          (mouse_x self) (mouse_y self)
          (mouse_wheel_x self) (mouse_wheel_y self) (mouse_buttons self) with
  | Raise _ => (self, [EvSleep (1 # 10)])
  | Ok packet =>
      if w_raises w then (self, [EvSleep (1 # 10)])
      else
        let self := set_tx_sequence ((tx_sequence self + 1) mod 65536) self in
        let self := set_last_tx_time (w_now w) self in
        (self,
         [EvSendTo packet (peer_address self) (udp_port self);
          EvSleep (1 # 1000)])
  end.

(** The loop: one observation per evaluation of [while self.running]. *)
Fixpoint udp_transmit_loop (ws : list world) (self : t) : t * list event :=
  match ws with
  | [] => (self, [])
  | w :: ws' =>
      if w_running w then
        let '(self1, ev1) := udp_transmit_iter w self in
        let '(self2, ev2) := udp_transmit_loop ws' self1 in
        (self2, ev1 ++ ev2)
      else (self, [])
  end.

(** *** [_udp_receive_loop] (lines 292-312) *)

(** What [recvfrom] does in one pass of the loop. *)
Inductive recv_obs : Type :=
  | RecvTimeout                               (* socket.timeout *)
  | RecvError                                 (* any other exception *)
  | RecvDatagram (data : list byte) (now : Q).

Definition udp_receive_iter (o : recv_obs) (self : t) : t * list event :=
  match o with
  | RecvTimeout => (self, [])
  | RecvError => (self, [EvSleep (1 # 10)])
  | RecvDatagram data now =>
      let self := record_rx (Z.of_nat (length data)) now self in
      match UDPPacket.unpack data with
      | Raise _ => (self, [EvSleep (1 # 10)])
      | Ok (Some (UDPPacket.MouseAbsolute sq x y wx wy b)) =>
          match on_mouse_data self with
          | Some cb =>
              (self,
               [EvMouseData cb (peer_name self)
                  (UDPPacket.MouseAbsolute sq x y wx wy b)])
          | None => (self, [])
          end
      | Ok _ => (self, [])
      end
  end.

(** *** [_check_liveness] (lines 314-329) *)

(** What one pass of the liveness loop observes: [running] at the loop
    head, the clock after the sleep, and the three reads of
    [self.last_rx_time], a field the receive thread writes: the test and
    the subtraction of line 322, and the guard of line 325.  The value
    [time_since_tx] of line 323 is never used. *)
Record poll : Type := mkPoll {
  p_running : bool;
  p_now : Q;
  p_rx_test : Q;
  p_rx_sub : Q;
  p_rx_guard : Q
}.

(** Line 322; the difference is one of floats. *)
Definition time_since_rx `{F : FloatArith} (p : poll) : Q :=
  if Qltb 0 (p_rx_test p) then fsub (p_now p) (p_rx_sub p) else 999%Q.

(** The condition of line 325. *)
Definition timed_out `{F : FloatArith} (p : poll) : bool :=
  Qltb 0 (p_rx_guard p) && Qltb 2 (time_since_rx p).

Definition fire_disconnect (self : t) : list event :=
  match on_disconnect self with
  | Some cb => [EvDisconnect cb (peer_name self)]
  | None => []
  end.

(** The loop.  The boolean tells whether the thread has returned. *)
Fixpoint check_liveness `{F : FloatArith} (self : t) (polls : list poll)
  : list event * bool :=
  match polls with
  | [] => ([], false)
  | p :: polls' =>
      if p_running p then
        if timed_out p
        then (EvSleep (1 # 2) :: fire_disconnect self, true)
        else
          let '(ev, returned) := check_liveness self polls' in
          (EvSleep (1 # 2) :: ev, returned)
      else ([], true)
  end.

(** *** [_tcp_connect_and_sync] (lines 209-264) *)

(** The points of the thread at which it looks at the world. *)
Inductive tcp_pc : Type :=
  | TcpLoop            (* line 211, [while self.running] *)
  | TcpConnect         (* lines 214-216, [socket], [settimeout], [connect] *)
  | TcpSendHandshake   (* lines 219-226, [sendall], [connected = True] *)
  | TcpReadLoop        (* line 227, [while self.running] *)
  | TcpRecv            (* lines 228-238, [recv] and the buffer *)
  | TcpSyncLoop        (* line 241, [while self.running] *)
  | TcpSyncSend        (* lines 242-250, [sleep], [sendall] *)
  | TcpReturned.       (* the thread function has returned *)

Record tcp_state : Type := mkTcp {
  tcp_at : tcp_pc;
  tcp_buffer : list byte;     (* the local [buffer] *)
  tcp_self : t
}.

(** [b'\n' in buffer] and [buffer.split(b'\n', 1)]: the bytes before the
    first newline and the bytes after it. *)
Fixpoint split_line (buffer : list byte) : option (list byte * list byte) :=
  match buffer with
  | [] => None
  | b :: rest =>
      if Byte.eqb b TCPMessage.newline then Some ([], rest)
      else match split_line rest with
           | Some (line, tail) => Some (b :: line, tail)
           | None => None
           end
  end.

(** The handler of lines 252-264. *)
Definition tcp_except (st : tcp_state) : tcp_state * list event :=
  let self := tcp_self st in
  (mkTcp TcpLoop (tcp_buffer st) (set_tcp_socket None (set_connected false self)),
   EvSetConnected false :: close_of (tcp_socket self) ++ [EvSleep 2]).

Definition tcp_goto (pc : tcp_pc) (st : tcp_state) : tcp_state :=
  mkTcp pc (tcp_buffer st) (tcp_self st).

Definition tcp_step `{J : TCPMessage.Json} (w : world) (st : tcp_state)
  : tcp_state * list event :=
  let self := tcp_self st in
  match tcp_at st with
  | TcpLoop =>
      if w_running w then (tcp_goto TcpConnect st, [])
      else (tcp_goto TcpReturned st, [])
  | TcpConnect =>
      let st := mkTcp TcpConnect (tcp_buffer st)
                  (set_tcp_socket (Some SockStream) self) in
      if w_raises w then tcp_except st
      else (tcp_goto TcpSendHandshake st,
            [EvConnect (peer_address self) (tcp_port self)])
  | TcpSendHandshake =>
      let handshake :=
        TCPMessage.pack_handshake (local_tcp_port self) (local_udp_port self)
          (username self) in
      if w_raises w then tcp_except st
      else (mkTcp TcpReadLoop [] (set_connected true self),
            [EvSendall handshake; EvSetConnected true])
  | TcpReadLoop =>
      if w_running w then (tcp_goto TcpRecv st, [])
      else (tcp_goto TcpSyncLoop st, [])
  | TcpRecv =>
      if w_raises w then tcp_except st
      else
        let chunk := w_chunk w in
        match chunk with
        | [] => (tcp_goto TcpSyncLoop st, [EvRecv chunk])
        | _ =>
            let buffer := tcp_buffer st ++ chunk in
            match split_line buffer with
            | None => (mkTcp TcpReadLoop buffer self, [EvRecv chunk])
            | Some (line, buffer) =>
                let st := mkTcp TcpReadLoop buffer self in
                match TCPMessage.unpack line with
                | None => (st, [EvRecv chunk])
                | Some msg =>
                    if TCPMessage.truthy msg then
                      match TCPMessage.get msg "type" with
                      | Raise _ =>
                          let '(st, ev) := tcp_except st in
                          (st, EvRecv chunk :: ev)
                      | Ok ty =>
                          if TCPMessage.is_str ty "handshake"
                          then (tcp_goto TcpSyncLoop st,
                                [EvRecv chunk; EvHandshakeConsumed line])
                          else (st, [EvRecv chunk])
                      end
                    else (st, [EvRecv chunk])
                end
            end
        end
  | TcpSyncLoop =>
      if w_running w then (tcp_goto TcpSyncSend st, [])
      else (tcp_goto TcpLoop st, [])
  | TcpSyncSend =>
      let sync_msg :=
        TCPMessage.pack_sync (w_rx_packets w) (w_rx_bytes w)
          (w_last_rx_time w) in
      if w_raises w then (tcp_goto TcpLoop st, [EvSleep 1])
      else (mkTcp TcpSyncLoop (tcp_buffer st) (set_last_tx_time (w_now w) self),
            [EvSleep 1; EvSendall sync_msg])
  | TcpReturned => (st, [])
  end.

(** The thread, from [st], against the observations [ws]. *)
Fixpoint tcp_run `{J : TCPMessage.Json} (ws : list world) (st : tcp_state)
  : tcp_state * list event :=
  match ws with
  | [] => (st, [])
  | w :: ws' =>
      let '(st1, ev1) := tcp_step w st in
      let '(st2, ev2) := tcp_run ws' st1 in
      (st2, ev1 ++ ev2)
  end.

(** The thread as [start] launches it. *)
Definition tcp_connect_and_sync `{J : TCPMessage.Json} (ws : list world) (self : t)
  : tcp_state * list event :=
  tcp_run ws (mkTcp TcpLoop [] self).

(** The loop of [_udp_receive_loop]: the value of [self.running] at the
    loop head, then what [recvfrom] does in that pass. *)
Fixpoint udp_receive_loop (os : list (bool * recv_obs)) (self : t)
  : t * list event :=
  match os with
  | [] => (self, [])
  | (still_running, o) :: os' =>
      if still_running then
        let '(self1, ev1) := udp_receive_iter o self in
        let '(self2, ev2) := udp_receive_loop os' self1 in
        (self2, ev1 ++ ev2)
      else (self, [])
  end.

End PeerConnection.

(** ** [class NetworkManager] *)

Module NetworkManager.

(** The listener socket and its thread are placeholders in the program
    ([_tcp_listener_loop] is empty) and are left out. *)
Record t : Type := mk {
  username : string;
  on_mouse_data : option callback;
  base_tcp_port : Z;
  base_udp_port : Z;
  next_port_offset : Z;
  peers : gmap string PeerConnection.t;
  running : bool
}.

(** [__init__] *)
Definition init (username : string) (on_mouse_data : option callback) : t :=
  {| username := username; on_mouse_data := on_mouse_data;
     base_tcp_port := 50000; base_udp_port := 51000;
     next_port_offset := 0; peers := ∅; running := false |}.

Definition set_peers (ps : gmap string PeerConnection.t) (self : t) : t :=
  {| username := username self; on_mouse_data := on_mouse_data self;
     base_tcp_port := base_tcp_port self;
     base_udp_port := base_udp_port self;
     next_port_offset := next_port_offset self; peers := ps;
     running := running self |}.

Definition set_next_port_offset (n : Z) (self : t) : t :=
  {| username := username self; on_mouse_data := on_mouse_data self;
     base_tcp_port := base_tcp_port self;
     base_udp_port := base_udp_port self;
     next_port_offset := n; peers := peers self;
     running := running self |}.

(** [connect_to_peer] (lines 377-402).  [bind_raises] is passed on to
    [PeerConnection.start]; its exception leaves [connect_to_peer] with
    the peer already registered. *)
Definition connect_to_peer (peer_name peer_address : string) (peer_port : Z)
    (bind_raises : bool) (self : t) : t * list event * result unit :=
  match peers self !! peer_name with
  | Some _ => (self, [], Ok tt)
  | None =>
      let tcp_port := base_tcp_port self + next_port_offset self in
      let udp_port := base_udp_port self + next_port_offset self in
      let self := set_next_port_offset (next_port_offset self + 1) self in
      let peer :=
        PeerConnection.init peer_name peer_address
          (if 0 <? peer_port then peer_port else 50000)
          (if 0 <? peer_port then peer_port + 1000 else 51000)
          tcp_port udp_port (username self)
          (Some ManagerHandleMouseData)
          (Some ManagerHandlePeerDisconnect) in
      let '(peer, ev, r) := PeerConnection.start bind_raises peer in
      (set_peers (<[peer_name := peer]> (peers self)) self, ev, r)
  end.

(** [disconnect_peer] (lines 404-410) *)
Definition disconnect_peer (peer_name : string) (self : t) : t * list event :=
  match peers self !! peer_name with
  | Some peer =>
      let '(_, ev) := PeerConnection.stop peer in
      (set_peers (delete peer_name (peers self)) self, ev)
  | None => (self, [])
  end.

(** [update_mouse_state] (lines 412-416) *)
Definition update_mouse_state (x y wheel_x wheel_y buttons : Z) (self : t) : t :=
  set_peers
    (PeerConnection.update_mouse_state x y wheel_x wheel_y buttons
       <$> peers self)
    self.

(** [_handle_peer_disconnect] *)
Definition handle_peer_disconnect (peer_name : string) (self : t)
  : t * list event :=
  disconnect_peer peer_name self.

(** One call of [connect_to_peer] as the discovery side makes it. *)
Record call : Type := mkCall {
  c_name : string;
  c_address : string;
  c_port : Z;
  c_bind_raises : bool
}.

Definition connect (c : call) (self : t) : t :=
  (connect_to_peer (c_name c) (c_address c) (c_port c) (c_bind_raises c) self).1.1.

(** Calls made one after the other, the first of the list first. *)
Definition connect_all (cs : list call) (self : t) : t :=
  fold_left (fun m c => connect c m) cs self.

Definition set_running (b : bool) (self : t) : t :=
  {| username := username self; on_mouse_data := on_mouse_data self;
     base_tcp_port := base_tcp_port self;
     base_udp_port := base_udp_port self;
     next_port_offset := next_port_offset self; peers := peers self;
     running := b |}.

(** [stop] (lines 361-375): every session is stopped and the registry
    is cleared.  [tcp_listener] is never assigned, so nothing else is
    closed.  The sessions are stopped in the order of the registry, which
    the map does not keep; the events of different sessions come here in
    the order of [map_to_list]. *)
Definition stop (self : t) : t * list event :=
  (set_peers ∅ (set_running false self),
   map_to_list (peers self) ≫= (fun np => (PeerConnection.stop np.2).2)).

(** [_handle_mouse_data] (lines 418-421) *)
Definition handle_mouse_data (peer_name : string) (pkt : UDPPacket.packet)
    (self : t) : list event :=
  match on_mouse_data self with
  | Some cb => [EvMouseData cb peer_name pkt]
  | None => []
  end.

(** A call made by a session through one of the two callbacks the
    manager gave it (lines 397-398); any other event is not for the
    manager. *)
Definition dispatch (e : event) (self : t) : t * list event :=
  match e with
  | EvMouseData ManagerHandleMouseData peer_name pkt =>
      (self, handle_mouse_data peer_name pkt self)
  | EvDisconnect ManagerHandlePeerDisconnect peer_name =>
      handle_peer_disconnect peer_name self
  | _ => (self, [])
  end.

(** The calls that change a manager. *)
Inductive op : Type :=
  | OpConnect (c : call)
  | OpDisconnect (peer_name : string)
  | OpPeerTimeout (peer_name : string)     (* _handle_peer_disconnect *)
  | OpUpdateMouse (x y wheel_x wheel_y buttons : Z)
  | OpStop.

Definition apply_op (o : op) (self : t) : t :=
  match o with
  | OpConnect c => connect c self
  | OpDisconnect peer_name => (disconnect_peer peer_name self).1
  | OpPeerTimeout peer_name => (handle_peer_disconnect peer_name self).1
  | OpUpdateMouse x y wheel_x wheel_y buttons =>
      update_mouse_state x y wheel_x wheel_y buttons self
  | OpStop => (stop self).1
  end.

(** Calls made one after the other, the first of the list first. *)
Definition apply_ops (os : list op) (self : t) : t :=
  fold_left (fun m o => apply_op o m) os self.

End NetworkManager.

(** ** [class MouseCapture] of [mouse_capture.py] *)

Module MouseCapture.

(** The listener and the simulation thread are left out. *)
Record t : Type := mk {
  on_mouse_update : option callback;
  running : bool;
  x : Z;
  y : Z;
  buttons : Z;
  wheel_x : Z;
  wheel_y : Z
}.

(** [__init__] *)
Definition init (on_mouse_update : option callback) : t :=
  {| on_mouse_update := on_mouse_update; running := false;
     x := 0; y := 0; buttons := 0; wheel_x := 0; wheel_y := 0 |}.

(** A call of [on_mouse_update]. *)
Inductive notification : Type :=
  | Notify (cb : callback) (x y wheel_x wheel_y buttons : Z).

(** [_notify_update] (lines 91-98): the callback, if any, then the wheel
    deltas go back to zero. *)
Definition notify_update (self : t) : t * list notification :=
  ({| on_mouse_update := on_mouse_update self; running := running self;
      x := x self; y := y self; buttons := buttons self;
      wheel_x := 0; wheel_y := 0 |},
   match on_mouse_update self with
   | Some cb =>
       [Notify cb (x self) (y self) (wheel_x self) (wheel_y self) (buttons self)]
   | None => []
   end).

(** [_on_move] (lines 60-64); the arguments are [int(x)] and [int(y)]. *)
Definition on_move (px py : Z) (self : t) : t * list notification :=
  notify_update
    {| on_mouse_update := on_mouse_update self; running := running self;
       x := Z.max 0 (Z.min 65535 px); y := Z.max 0 (Z.min 65535 py);
       buttons := buttons self;
       wheel_x := wheel_x self; wheel_y := wheel_y self |}.

(** The members of [pynput.mouse.Button] the handler tells apart. *)
Inductive button : Type :=
  | ButtonLeft | ButtonRight | ButtonMiddle | ButtonOther.

(** Lines 69-75.  [siblings] is the value of [hasattr(button, 'left')]
    (and of the two like it): whether a member of the enumeration shows
    the other members as attributes, which depends on the Python
    version. *)
Definition button_bit (siblings : bool) (b : button) : Z :=
  match b with
  | ButtonLeft => if siblings then Z.shiftl 1 0 else 0
  | ButtonRight => if siblings then Z.shiftl 1 1 else 0
  | ButtonMiddle => if siblings then Z.shiftl 1 2 else 0
  | ButtonOther => 0
  end.

(** [_on_click] (lines 66-82); the position arguments are not used. *)
Definition on_click (siblings : bool) (b : button) (pressed : bool) (self : t)
  : t * list notification :=
  let bit := button_bit siblings b in
  notify_update
    {| on_mouse_update := on_mouse_update self; running := running self;
       x := x self; y := y self;
       buttons := if pressed then Z.lor (buttons self) bit
                  else Z.land (buttons self) (Z.lnot bit);
       wheel_x := wheel_x self; wheel_y := wheel_y self |}.

(** [_on_scroll] (lines 84-89); the arguments are [int(dx)] and
    [int(dy)], the position is not used. *)
Definition on_scroll (dx dy : Z) (self : t) : t * list notification :=
  notify_update
    {| on_mouse_update := on_mouse_update self; running := running self;
       x := x self; y := y self; buttons := buttons self;
       wheel_x := Z.max (-128) (Z.min 127 (wheel_x self + dx));
       wheel_y := Z.max (-128) (Z.min 127 (wheel_y self + dy)) |}.

(** [get_state] (lines 113-121): the dictionary, as the tuple of its
    values for ['x'], ['y'], ['wheel_x'], ['wheel_y'], ['buttons']. *)
Definition get_state (self : t) : Z * Z * Z * Z * Z :=
  (x self, y self, wheel_x self, wheel_y self, buttons self).

(** What the listener thread calls. *)
Inductive input : Type :=
  | Move (px py : Z)
  | Click (siblings : bool) (b : button) (pressed : bool)
  | Scroll (dx dy : Z).

Definition handle (i : input) (self : t) : t * list notification :=
  match i with
  | Move px py => on_move px py self
  | Click siblings b pressed => on_click siblings b pressed self
  | Scroll dx dy => on_scroll dx dy self
  end.

(** The handlers run one after the other on the listener thread. *)
Fixpoint handle_all (inputs : list input) (self : t) : t * list notification :=
  match inputs with
  | [] => (self, [])
  | i :: inputs' =>
      let '(self1, n1) := handle i self in
      let '(self2, n2) := handle_all inputs' self1 in
      (self2, n1 ++ n2)
  end.

End MouseCapture.

(** ** [class KoatsumeApp] of [app.py]: the list of discovered instances *)

Module KoatsumeApp.

(** An entry of [discovered_instances]. *)
Record instance : Type := mkInstance {
  name : string;
  server : string;
  addresses : list string;
  port : Z;
  properties : gmap string string;
  last_seen : Q;
  connected : bool
}.

(** What [add_discovered_instance] takes from a zeroconf [ServiceInfo]:
    the addresses already in text form and the properties already
    decoded (lines 92-108 call the [socket] module for that). *)
Record info : Type := mkInfo {
  i_name : string;
  i_server : string;
  i_addresses : list string;
  i_port : Z;
  i_properties : gmap string string
}.

(** The part of the application the discovery works on; [window] tells
    whether [self.window] is set. *)
Record t : Type := mk {
  discovered_instances : list instance;
  hidden_instances : gset string;
  window : bool
}.

(** [__init__], before the window is created. *)
Definition init : t :=
  {| discovered_instances := []; hidden_instances := ∅; window := false |}.

(** [self.window.evaluate_js(script)] *)
Inductive ui_event : Type :=
  | EvaluateJs (script : string).

Definition update_ui (self : t) : list ui_event :=
  if window self then [EvaluateJs "updateInstances()"] else [].

(** The loop of lines 111-118: the first entry of that name is replaced;
    [None] when there is none. *)
Fixpoint replace_existing (new : instance) (l : list instance)
  : option (list instance) :=
  match l with
  | [] => None
  | existing :: l' =>
      if String.eqb (name existing) (name new) then Some (new :: l')
      else cons existing <$> replace_existing new l'
  end.

(** [add_discovered_instance] (lines 87-130), at time [now]. *)
Definition add_discovered_instance (i : info) (now : Q) (self : t)
  : t * list ui_event :=
  let new := mkInstance (i_name i) (i_server i) (i_addresses i) (i_port i)
               (i_properties i) now true in
  match replace_existing new (discovered_instances self) with
  | Some l =>
      ({| discovered_instances := l;
          hidden_instances := hidden_instances self ∖ {[name new]};
          window := window self |}, [])
  | None =>
      ({| discovered_instances := discovered_instances self ++ [new];
          hidden_instances := hidden_instances self ∖ {[name new]};
          window := window self |}, update_ui self)
  end.

(** [remove_discovered_instance] (lines 132-138) *)
Definition remove_discovered_instance (n : string) (self : t)
  : t * list ui_event :=
  ({| discovered_instances :=
        filter (fun i => name i ≠ n) (discovered_instances self);
      hidden_instances := hidden_instances self;
      window := window self |}, update_ui self).

(** [hide_instance] (lines 79-85) *)
Definition hide_instance (n : string) (self : t) : t * list ui_event :=
  ({| discovered_instances := discovered_instances self;
      hidden_instances := {[n]} ∪ hidden_instances self;
      window := window self |}, update_ui self).

(** An entry of the list [get_discovered_instances] returns: the copy of
    the instance with its ['connected'] entry set, and the added
    ['time_since_seen']. *)
Record view : Type := mkView {
  v_instance : instance;
  v_time_since_seen : Q
}.

Definition view_of `{F : FloatArith} (current_time : Q) (i : instance) : view :=
  let time_since_seen := fsub current_time (last_seen i) in
  mkView
    (mkInstance (name i) (server i) (addresses i) (port i) (properties i)
       (last_seen i) (Qle_bool time_since_seen 1))
    time_since_seen.

(** [get_discovered_instances] (lines 61-77), at time [current_time]. *)
Definition get_discovered_instances `{F : FloatArith} (current_time : Q)
    (self : t) : list view :=
  view_of current_time
    <$> filter (fun i => name i ∉ hidden_instances self)
          (discovered_instances self).

(** [class ServiceListener] (lines 235-258): what zeroconf reports, with
    the result of [get_service_info] where the method asks for it. *)
Inductive service_event : Type :=
  | AddService (i : option info)
  | RemoveService (n : string)
  | UpdateService (i : option info).

Definition on_service (e : service_event) (now : Q) (self : t)
  : t * list ui_event :=
  match e with
  | AddService (Some i) | UpdateService (Some i) =>
      add_discovered_instance i now self
  | AddService None | UpdateService None => (self, [])
  | RemoveService n => remove_discovered_instance n self
  end.

(** What changes the discovery state: a zeroconf report at some time, or
    the user hiding an instance. *)
Inductive action : Type :=
  | Service (e : service_event) (now : Q)
  | Hide (n : string).

Definition act (a : action) (self : t) : t :=
  match a with
  | Service e now => (on_service e now self).1
  | Hide n => (hide_instance n self).1
  end.

Definition act_all (acts : list action) (self : t) : t :=
  fold_left (fun s a => act a s) acts self.

End KoatsumeApp.

(** * The vocabulary of the properties *)

Section CodecTerms.
Import Struct UDPPacket.

(** The fields of a mouse frame as [unpack] reads them from the seven
    bytes after the header. *)
Definition mouse_of (sequence : Z) (payload : list byte) : packet :=
  match decode_all MOUSE_FORMAT payload with
  | [x; y; wheel_x; wheel_y; buttons] =>
      MouseAbsolute sequence x y wheel_x wheel_y buttons
  | _ => Heartbeat sequence
  end.

(** The type byte of a datagram, when it has one. *)
Definition type_byte (data : list byte) : option Z :=
  Struct.byte_to_Z <$> data !! 2%nat.

(** When [unpack] is said to give no decode, for a mouse frame of
    [mouse_frame_size] bytes in all. *)
Definition no_decode_when (mouse_frame_size : nat) (data : list byte) : Prop :=
  (length data < 3)%nat
  \/ (exists ty, type_byte data = Some ty /\ ty <> 0 /\ ty <> 1)
  \/ (type_byte data = Some 1 /\ (length data < mouse_frame_size)%nat).

(** An eight-byte datagram whose type byte is 1. *)
Definition short_mouse_datagram : list byte :=
  [x00; x07; x01; x00; x64; x00; xc8; x01].

End CodecTerms.

Section ManagerTerms.
Import NetworkManager.
Implicit Types (m : NetworkManager.t) (c : call) (cs : list call).

(** The session [connect_to_peer] registers for a new name. *)
Definition new_peer m (peer_name peer_address : string) (peer_port : Z)
  : PeerConnection.t :=
  PeerConnection.set_udp_socket (Some SockDgram)
    (PeerConnection.set_running true
       (PeerConnection.init peer_name peer_address
          (if 0 <? peer_port then peer_port else 50000)
          (if 0 <? peer_port then peer_port + 1000 else 51000)
          (base_tcp_port m + next_port_offset m)
          (base_udp_port m + next_port_offset m)
          (username m)
          (Some ManagerHandleMouseData)
          (Some ManagerHandlePeerDisconnect))).

(** The discovery of peer "B" at 10.0.0.5, announced port 51000. *)
Definition peer_B : call := mkCall "B" "10.0.0.5" 51000 false.

Definition manager0 : NetworkManager.t := init "alice" (Some (HostCallback 0)).

End ManagerTerms.

Section SnapshotTerms.
Import PeerConnection.
Implicit Types (self p : PeerConnection.t).

Definition args_in_range (x y wheel_x wheel_y buttons : Z) : Prop :=
  0 <= x <= 65535 /\ 0 <= y <= 65535
  /\ -128 <= wheel_x <= 127 /\ -128 <= wheel_y <= 127
  /\ 0 <= buttons <= 255.

Definition snapshot_in_range p : Prop :=
  args_in_range (mouse_x p) (mouse_y p) (mouse_wheel_x p) (mouse_wheel_y p)
    (mouse_buttons p).

Definition snapshot p : Z * Z * Z * Z * Z :=
  (mouse_x p, mouse_y p, mouse_wheel_x p, mouse_wheel_y p, mouse_buttons p).

(** A session as the manager creates it for peer "B". *)
Definition session_B : PeerConnection.t :=
  new_peer manager0 "B" "10.0.0.5" 51000.

(** The frames among the events of a thread. *)
Definition frames_sent (ev : list event) : list (list byte) :=
  omap (fun e => match e with EvSendTo packet _ _ => Some packet | _ => None end)
    ev.

End SnapshotTerms.

Section LivenessTerms.
Import PeerConnection.
Implicit Types (self : PeerConnection.t) (p : poll) (polls : list poll).

Definition is_disconnect (e : event) : bool :=
  match e with
  | EvDisconnect _ _ => true
  | _ => false
  end.

(** How many times the disconnect callback was called. *)
Definition disconnects (ev : list event) : nat :=
  length (filter (fun e => is_disconnect e = true) ev).



(** The float arithmetic of the examples: their timestamps are multiples
    of 1/4 far below 2^50, so every difference taken is a double and no
    rounding takes place. *)
Definition no_rounding : FloatArith :=
  {| fround := fun q => q;
     fround_mono := fun a b H => H;
     fround_1 := Qeq_refl 1;
     fround_2 := Qeq_refl 2 |}.


(** A pass at time [now] of a running session whose last datagram came
    at time [last]. *)
Definition heard (now last : Q) : poll := mkPoll true now last last last.

End LivenessTerms.

Section TcpTerms.
Import PeerConnection.
Context `{J : TCPMessage.Json}.
Implicit Types (st : tcp_state) (w : world) (ws : list world)
  (ev hist : list event).

(** What the thread never writes. *)
Definition config (self : PeerConnection.t) : string * Z * Z * Z * string :=
  (peer_address self, tcp_port self, local_tcp_port self,
   local_udp_port self, username self).

Definition connect_event (self : PeerConnection.t) : event :=
  EvConnect (peer_address self) (tcp_port self).

Definition handshake_event (self : PeerConnection.t) : event :=
  EvSendall (TCPMessage.pack_handshake (local_tcp_port self)
               (local_udp_port self) (username self)).

(** The value of [connected] as the thread last wrote it, [f] before
    any write. *)
Definition flag_after (f : bool) ev : bool :=
  fold_left (fun f e => match e with EvSetConnected b => b | _ => f end) ev f.

(** Reading from the peer. *)
Definition is_read (e : event) : Prop :=
  match e with
  | EvRecv _ | EvHandshakeConsumed _ => True
  | _ => False
  end.

(** Every read happens with the flag set. *)
Fixpoint reads_ok (f : bool) ev : Prop :=
  match ev with
  | [] => True
  | e :: ev' =>
      (is_read e -> f = true) /\ reads_ok (flag_after f [e]) ev'
  end.

(** Every [connected = True] comes right after the handshake was sent,
    itself right after the connect; [hist] is what came before, latest
    first. *)
Fixpoint sets_ok (self : PeerConnection.t) hist ev : Prop :=
  match ev with
  | [] => True
  | e :: ev' =>
      (e = EvSetConnected true ->
       exists tl, hist = handshake_event self :: connect_event self :: tl)
      /\ sets_ok self (e :: hist) ev'
  end.

(** The thread is reading the handshake response. *)
Definition reading (pc : tcp_pc) : Prop :=
  pc = TcpReadLoop \/ pc = TcpRecv.

Definition is_set (e : event) : Prop :=
  match e with
  | EvSetConnected _ => True
  | _ => False
  end.

(** A stand-in for the [json] module in the examples: an object is
    written as the text of its ['type'] entry, and a line is read back
    as an object with that one entry. *)
Definition tag_only_json : TCPMessage.Json :=
  {| TCPMessage.json_dumps v :=
       match v with
       | TCPMessage.JObject entries =>
           match TCPMessage.assoc "type" entries with
           | Some (TCPMessage.JString s) => String.list_byte_of_string s
           | _ => []
           end
       | _ => []
       end;
     TCPMessage.json_loads line :=
       Ok (TCPMessage.JObject
             [("type"%string,
               TCPMessage.JString (String.string_of_list_byte line))]) |}.

(** The thread goes on, the socket call succeeds and, for a [recv],
    returns [chunk]. *)
Definition go (chunk : list byte) : world :=
  mkWorld true false chunk 0 0 0 0.

(** The socket call raises. *)
Definition fail : world := mkWorld true true [] 0 0 0 0.

Definition handshake_line : list byte :=
  String.list_byte_of_string "handshake" ++ [TCPMessage.newline].

End TcpTerms.

Section FurtherCodecTerms.
Import Struct UDPPacket.

(** All values of [vals] fit the format characters of [fmt]. *)
Definition all_in_range (fmt : list code) (vals : list Z) : Prop :=
  Forall2 (fun c v => in_range c v = true) fmt vals.

(** The fields of a decoded frame fit the wire format. *)
Definition packet_in_range (pkt : packet) : Prop :=
  match pkt with
  | Heartbeat sequence => 0 <= sequence <= 65535
  | MouseAbsolute sequence x y wheel_x wheel_y buttons =>
      0 <= sequence <= 65535
      /\ args_in_range x y wheel_x wheel_y buttons
  end.

(** Packing a decoded frame again. *)
Definition repack (pkt : packet) : result (list byte) :=
  match pkt with
  | Heartbeat sequence => pack_heartbeat sequence
  | MouseAbsolute sequence x y wheel_x wheel_y buttons =>
      pack_mouse_absolute sequence x y wheel_x wheel_y buttons
  end.

(** The length of the frame of a packet. *)
Definition frame_length (pkt : packet) : nat :=
  match pkt with
  | Heartbeat _ => 3
  | MouseAbsolute _ _ _ _ _ _ => 10
  end.

End FurtherCodecTerms.

Section FurtherTransmitTerms.
Import PeerConnection.
Implicit Types (self : PeerConnection.t) (w : world) (ws : list world).

(** The fields the transmit thread reads and never writes. *)
Definition tx_inputs self : Z * Z * Z * Z * Z * string * Z :=
  (mouse_x self, mouse_y self, mouse_wheel_x self, mouse_wheel_y self,
   mouse_buttons self, peer_address self, udp_port self).

End FurtherTransmitTerms.

Section FurtherReceiveTerms.
Import PeerConnection.
Implicit Types (self : PeerConnection.t) (os : list (bool * recv_obs)).

(** The datagrams the loop takes in: those of the passes before the
    first one that finds [running] false. *)
Fixpoint received os : list (list byte * Q) :=
  match os with
  | (true, RecvDatagram data now) :: os' => (data, now) :: received os'
  | (true, _) :: os' => received os'
  | _ => []
  end.

Definition total_bytes (ds : list (list byte * Q)) : Z :=
  foldr (fun d n => Z.of_nat (length d.1) + n) 0 ds.

(** The fields the receive thread reads and never writes. *)
Definition rx_inputs self : string * option callback :=
  (peer_name self, on_mouse_data self).

End FurtherReceiveTerms.

Section FurtherLivenessTerms.
Import PeerConnection.
Implicit Types (self : PeerConnection.t) (p : poll) (polls : list poll).

(** The pass reads one value of [last_rx_time] for the test and the
    guard, and finds at most 2.0 seconds of silence. *)
Definition within_window p : Prop :=
  p_rx_test p = p_rx_guard p /\ (p_now p - p_rx_sub p <= 2)%Q.

End FurtherLivenessTerms.

Section FurtherTcpTerms.
Import PeerConnection.
Context `{J : TCPMessage.Json}.
Implicit Types (st : tcp_state) (w : world) (ws : list world)
  (self : PeerConnection.t).

(** The object [pack_handshake] writes. *)
Definition handshake_object (tcp_port udp_port : Z) (user : string)
  : TCPMessage.json :=
  TCPMessage.JObject
    [("type"%string, TCPMessage.JString "handshake");
     ("tcp_port"%string, TCPMessage.JInt tcp_port);
     ("udp_port"%string, TCPMessage.JInt udp_port);
     ("username"%string, TCPMessage.JString user)].

(** What the thread needs of the [json] module to know a handshake it
    wrote: the text has no newline, and reading it gives a non-empty
    object whose ['type'] is still ['handshake']. *)
Definition handshake_readable (obj : TCPMessage.json) : Prop :=
  (TCPMessage.newline ∉ TCPMessage.json_dumps obj)
  /\ exists msg,
       TCPMessage.json_loads (TCPMessage.json_dumps obj) = Ok msg
       /\ TCPMessage.truthy msg = true
       /\ TCPMessage.get msg "type"
          = Ok (Some (TCPMessage.JString "handshake")).

End FurtherTcpTerms.

Section FurtherTcpRunsTerms.
Import PeerConnection.
Context `{J : TCPMessage.Json}.
Implicit Types (st : tcp_state) (w : world) (ws : list world)
  (self : PeerConnection.t).

(** How many steps the thread is from returning once [running] is
    false, at most. *)
Definition tcp_rank (pc : tcp_pc) : nat :=
  match pc with
  | TcpReturned => 0
  | TcpLoop => 1
  | TcpSyncLoop => 2
  | TcpSyncSend => 3
  | TcpReadLoop => 3
  | TcpRecv => 4
  | TcpSendHandshake => 4
  | TcpConnect => 5
  end.

End FurtherTcpRunsTerms.

Section FurtherTcpRetryTerms.
Import PeerConnection.
Context `{J : TCPMessage.Json}.
Implicit Types (st : tcp_state) (w : world) (ws : list world)
  (self : PeerConnection.t).

(** The observations of a list of passes of two steps each. *)
Definition two_steps (passes : list (world * world)) : list world :=
  passes ≫= (fun a => [a.1; a.2]).

(** The loop head finds the session running, then [connect] raises. *)
Definition failed_connect (a : world * world) : Prop :=
  w_running a.1 = true /\ w_raises a.2 = true.

(** The loop head finds the session running, then [sendall] returns. *)
Definition sync_sent (a : world * world) : Prop :=
  w_running a.1 = true /\ w_raises a.2 = false.

Definition cooldown : list event :=
  [EvSetConnected false; EvClose SockStream; EvSleep 2].

(** The sync message of a pass: it carries the receive counters as the
    pass reads them at line 244. *)
Definition sync_event (w : world) : event :=
  EvSendall (TCPMessage.pack_sync (w_rx_packets w) (w_rx_bytes w)
               (w_last_rx_time w)).

End FurtherTcpRetryTerms.

Section FurtherManagerTerms.
Import NetworkManager.
Implicit Types (m : NetworkManager.t) (c : call) (o : op) (os : list op)
  (p : PeerConnection.t).

(** The session under [name] is one the manager made: it carries the
    name, the manager's user name and callbacks, and local ports at an
    offset the manager has already handed out. *)
Definition made_by m (name : string) p : Prop :=
  PeerConnection.peer_name p = name
  /\ PeerConnection.username p = username m
  /\ PeerConnection.on_mouse_data p = Some ManagerHandleMouseData
  /\ PeerConnection.on_disconnect p = Some ManagerHandlePeerDisconnect
  /\ exists k,
       0 <= k < next_port_offset m
       /\ PeerConnection.local_tcp_port p = base_tcp_port m + k
       /\ PeerConnection.local_udp_port p = base_udp_port m + k.

Definition distinct_ports m : Prop :=
  forall (n1 n2 : string) p1 p2,
    n1 <> n2 -> peers m !! n1 = Some p1 -> peers m !! n2 = Some p2 ->
    PeerConnection.local_tcp_port p1 <> PeerConnection.local_tcp_port p2
    /\ PeerConnection.local_udp_port p1 <> PeerConnection.local_udp_port p2.

Definition registry_wf m : Prop :=
  0 <= next_port_offset m
  /\ (forall (name : string) p, peers m !! name = Some p -> made_by m name p)
  /\ distinct_ports m.

(** What no call changes. *)
Definition settings m : string * option callback * Z * Z :=
  (username m, on_mouse_data m, base_tcp_port m, base_udp_port m).

End FurtherManagerTerms.

Section FurtherCaptureTerms.
Import MouseCapture.
Implicit Types (s : MouseCapture.t) (i : input) (inputs : list input).

(** Between two handlers: the position and the buttons fit the wire
    format and no wheel delta is pending. *)
Definition capture_wf s : Prop :=
  0 <= x s <= 65535 /\ 0 <= y s <= 65535
  /\ wheel_x s = 0 /\ wheel_y s = 0
  /\ 0 <= buttons s <= 7.

Definition notified_in_range (n : notification) : Prop :=
  match n with
  | Notify _ px py wx wy b => args_in_range px py wx wy b
  end.

End FurtherCaptureTerms.

Section FurtherAppTerms.
Import KoatsumeApp.
Implicit Types (s : KoatsumeApp.t) (i : info) (l : list instance).

Definition names s : list string := name <$> discovered_instances s.

(** The entry [add_discovered_instance] stores. *)
Definition entry_of i (now : Q) : instance :=
  mkInstance (i_name i) (i_server i) (i_addresses i) (i_port i)
    (i_properties i) now true.

End FurtherAppTerms.

(** * Properties *)

(** ** Bytes and [struct] *)

Section StructFacts.
Import Struct.

Lemma byte_to_Z_range (b : byte) : 0 <= byte_to_Z b < 256.
Proof.
  unfold byte_to_Z. pose proof (Byte.to_N_bounded b) as Hb.
  split; [apply N2Z.is_nonneg | ].
  change 256 with (Z.of_N 256). apply N2Z.inj_lt. lia.
Qed.

Lemma byte_to_of_Z (z : Z) : byte_to_Z (byte_of_Z z) = z mod 256.
Proof.
  assert (Hm : 0 <= z mod 256 < 256) by (apply Z.mod_pos_bound; lia).
  unfold byte_to_Z, byte_of_Z.
  destruct (Byte.of_N (Z.to_N (z mod 256))) as [b|] eqn:E.
  - apply Byte.to_of_N in E. rewrite E. apply Z2N.id. lia.
  - apply Byte.of_N_None_iff in E. lia.
Qed.

Lemma encode_length (c : code) (v : Z) : length (encode c v) = code_size c.
Proof. destruct c; reflexivity. Qed.

Lemma decode_encode (c : code) (v : Z) :
  in_range c v = true -> decode c (encode c v) = v.
Proof.
  destruct c; cbn [in_range encode decode be_uint fold_left];
    rewrite andb_true_iff, !Z.leb_le; intros [Hlo Hhi];
    rewrite ?byte_to_of_Z, ?Z.shiftr_div_pow2 by lia;
    change (2 ^ 8) with 256.
  - pose proof (Z.div_mod v 256 ltac:(lia)) as Hv.
    assert (0 <= v / 256 < 256)
      by (split; [apply Z.div_pos | apply Z.div_lt_upper_bound]; lia).
    rewrite (Z.mod_small (v / 256)) by lia. lia.
  - rewrite Z.mod_small by lia. lia.
  - destruct (Z_lt_le_dec v 0) as [Hneg | Hpos].
    + replace (v mod 256) with (v + 256)
        by (apply (Z.mod_unique v 256 (-1)); lia).
      destruct (Z.ltb_spec (0 * 256 + (v + 256)) 128); lia.
    + rewrite Z.mod_small by lia.
      destruct (Z.ltb_spec (0 * 256 + v) 128); lia.
Qed.

Lemma pack_length (fmt : list code) :
  forall vals bs, pack fmt vals = Ok bs -> length bs = calcsize fmt.
Proof.
  induction fmt as [|c fmt IH]; intros [|v vals] bs; cbn [pack calcsize];
    try discriminate.
  - intros [= <-]. reflexivity.
  - destruct (in_range c v); [|discriminate].
    destruct (pack fmt vals) as [rest|] eqn:E; cbn [rbind]; [|discriminate].
    intros [= <-]. rewrite length_app, encode_length, (IH _ _ E). reflexivity.
Qed.

Lemma decode_all_pack (fmt : list code) :
  forall vals bs, pack fmt vals = Ok bs -> decode_all fmt bs = vals.
Proof.
  induction fmt as [|c fmt IH]; intros [|v vals] bs; cbn [pack decode_all];
    try discriminate.
  - reflexivity.
  - destruct (in_range c v) eqn:Hr; [|discriminate].
    destruct (pack fmt vals) as [rest|] eqn:E; cbn [rbind]; [|discriminate].
    intros [= <-]. rewrite <- (encode_length c v).
    rewrite take_app_length, drop_app_length.
    rewrite decode_encode by assumption. f_equal. apply IH, E.
Qed.

(** What [struct.pack] produced, [struct.unpack] reads back. *)
Lemma unpack_pack (fmt : list code) (vals : list Z) (bs : list byte) :
  pack fmt vals = Ok bs -> unpack fmt bs = Ok vals.
Proof.
  intros Hp. unfold unpack.
  rewrite (pack_length _ _ _ Hp), Nat.eqb_refl.
  f_equal. apply decode_all_pack, Hp.
Qed.

(** [struct.pack] succeeds on values in range. *)
Lemma pack_in_range (fmt : list code) :
  forall vals, Forall2 (fun c v => in_range c v = true) fmt vals ->
    exists bs, pack fmt vals = Ok bs.
Proof.
  induction fmt as [|c fmt IH]; intros vals Hall; inversion Hall; subst.
  - exists []. reflexivity.
  - destruct (IH _ ltac:(eassumption)) as [rest Hrest].
    exists (encode c y ++ rest). cbn [pack].
    match goal with H : in_range _ _ = true |- _ => rewrite H end.
    rewrite Hrest. reflexivity.
Qed.

End StructFacts.

(** ** The UDP frame codec *)

Section CodecFacts.
Import Struct UDPPacket.

Lemma unpack_short (data : list byte) :
  (length data < 3)%nat -> unpack data = Ok None.
Proof.
  intros Hlen. unfold unpack.
  destruct (Nat.ltb_spec (length data) HEADER_SIZE) as [_|Hge];
    [reflexivity | change HEADER_SIZE with 3%nat in Hge; lia].
Qed.

(** [unpack] on a datagram that has a header, case by case. *)
Lemma unpack_header (b0 b1 b2 : byte) (rest : list byte) :
  unpack (b0 :: b1 :: b2 :: rest) =
    if byte_to_Z b2 =? 0 then Ok (Some (Heartbeat (be_uint [b0; b1])))
    else if byte_to_Z b2 =? 1 then
      if Nat.ltb (length rest) 7 then Ok None
      else Ok (Some (mouse_of (be_uint [b0; b1]) (take 7 rest)))
    else Ok None.
Proof.
  unfold unpack.
  change (Nat.ltb (length (b0 :: b1 :: b2 :: rest)) HEADER_SIZE) with false.
  change (Struct.unpack HEADER_FORMAT (take HEADER_SIZE (b0 :: b1 :: b2 :: rest)))
    with (Ok (A := list Z) [be_uint [b0; b1]; 0 * 256 + byte_to_Z b2]).
  cbn [rbind]. unfold TYPE_HEARTBEAT, TYPE_MOUSE_ABSOLUTE.
  replace (0 * 256 + byte_to_Z b2) with (byte_to_Z b2) by lia.
  destruct (byte_to_Z b2 =? 0); [reflexivity|].
  destruct (byte_to_Z b2 =? 1); [|reflexivity].
  change (Nat.ltb (length (b0 :: b1 :: b2 :: rest)) (HEADER_SIZE + MOUSE_SIZE))
    with (Nat.ltb (length rest) 7).
  change (slice HEADER_SIZE (HEADER_SIZE + MOUSE_SIZE) (b0 :: b1 :: b2 :: rest))
    with (take 7 rest).
  destruct (Nat.ltb_spec (length rest) 7) as [|Hge]; [reflexivity|].
  unfold Struct.unpack.
  replace (length (take 7 rest)) with 7%nat by (rewrite length_take; lia).
  reflexivity.
Qed.

Lemma type_byte_header (b0 b1 b2 : byte) (rest : list byte) :
  type_byte (b0 :: b1 :: b2 :: rest) = Some (byte_to_Z b2).
Proof. reflexivity. Qed.

Lemma type_byte_short (data : list byte) :
  (length data < 3)%nat -> type_byte data = None.
Proof.
  intros Hlen. unfold type_byte.
  rewrite (lookup_ge_None_2 data 2) by lia. reflexivity.
Qed.

(** A datagram with a header, taken apart. *)
Lemma header_inv (data : list byte) :
  (3 <= length data)%nat ->
  exists b0 b1 b2 rest, data = b0 :: b1 :: b2 :: rest.
Proof.
  destruct data as [|b0 [|b1 [|b2 rest]]]; cbn [length]; intros;
    try lia; eauto.
Qed.

Example pack_heartbeat_258 :
  pack_heartbeat 258 = Ok [x01; x02; x00].
Proof. reflexivity. Qed.

(** A mouse frame is ten bytes long: three of header, seven of payload. *)
Example pack_mouse_sample :
  pack_mouse_absolute 65535 100 200 1 (-1) 5
  = Ok [xff; xff; x01; x00; x64; x00; xc8; x01; xff; x05].
Proof. reflexivity. Qed.

Example mouse_frame_size : (HEADER_SIZE + MOUSE_SIZE = 10)%nat.
Proof. reflexivity. Qed.

Example pack_out_of_range :
  pack_heartbeat 65536 = Raise StructError
  /\ pack_mouse_absolute 0 0 0 128 0 0 = Raise StructError.
Proof. split; reflexivity. Qed.

(** A frame made by [pack_heartbeat] decodes to its sequence number,
    whatever follows it. *)
Lemma unpack_heartbeat_frame (sequence : Z) (frame extra : list byte) :
  pack_heartbeat sequence = Ok frame ->
  unpack (frame ++ extra) = Ok (Some (Heartbeat sequence)).
Proof.
  intros Hp. unfold pack_heartbeat in Hp.
  pose proof (pack_length _ _ _ Hp) as Hlen.
  pose proof (unpack_pack _ _ _ Hp) as Hu.
  unfold unpack.
  destruct (Nat.ltb_spec (length (frame ++ extra)) HEADER_SIZE) as [Hlt|_].
  { rewrite length_app, Hlen in Hlt. unfold HEADER_SIZE in Hlt. lia. }
  unfold HEADER_SIZE. rewrite <- Hlen, take_app_length, Hu.
  reflexivity.
Qed.

(** Likewise for [pack_mouse_absolute]. *)
Lemma unpack_mouse_frame (sequence x y wheel_x wheel_y buttons : Z)
    (frame extra : list byte) :
  pack_mouse_absolute sequence x y wheel_x wheel_y buttons = Ok frame ->
  unpack (frame ++ extra)
  = Ok (Some (MouseAbsolute sequence x y wheel_x wheel_y buttons)).
Proof.
  unfold pack_mouse_absolute.
  destruct (pack HEADER_FORMAT _) as [header|] eqn:Hh; cbn [rbind]; [|discriminate].
  destruct (pack MOUSE_FORMAT _) as [payload|] eqn:Hm; cbn [rbind]; [|discriminate].
  intros [= <-].
  pose proof (pack_length _ _ _ Hh) as Hlh.
  pose proof (pack_length _ _ _ Hm) as Hlm.
  pose proof (unpack_pack _ _ _ Hh) as Huh.
  pose proof (unpack_pack _ _ _ Hm) as Hum.
  unfold unpack.
  destruct (Nat.ltb_spec (length ((header ++ payload) ++ extra)) HEADER_SIZE)
    as [Hlt|_].
  { rewrite !length_app, Hlh in Hlt. unfold HEADER_SIZE in Hlt. lia. }
  destruct (Nat.ltb_spec (length ((header ++ payload) ++ extra))
              (HEADER_SIZE + MOUSE_SIZE)) as [Hlt|_].
  { rewrite !length_app, Hlh, Hlm in Hlt.
    unfold HEADER_SIZE, MOUSE_SIZE in Hlt. lia. }
  rewrite <- !app_assoc.
  unfold slice, HEADER_SIZE, MOUSE_SIZE.
  replace (calcsize HEADER_FORMAT + calcsize MOUSE_FORMAT - calcsize HEADER_FORMAT)%nat
    with (calcsize MOUSE_FORMAT) by lia.
  rewrite <- Hlh, take_app_length, drop_app_length.
  rewrite <- Hlm, take_app_length, Huh, Hum.
  reflexivity.
Qed.

End CodecFacts.

Section CodecClaims.
Import Struct UDPPacket.

Lemma in_range_intro (c : code) (v lo hi : Z) :
  in_range c v = ((lo <=? v) && (v <=? hi)) ->
  lo <= v <= hi -> in_range c v = true.
Proof.
  intros -> [? ?]. apply andb_true_iff. split; apply Z.leb_le; lia.
Qed.

Ltac in_range_all :=
  repeat match goal with |- Forall2 _ _ _ => constructor end;
  try reflexivity;
  (eapply in_range_intro; [reflexivity | lia]).

Lemma mouse_of_is_mouse (sequence : Z) (payload : list byte) :
  exists x y wheel_x wheel_y buttons,
    mouse_of sequence payload = MouseAbsolute sequence x y wheel_x wheel_y buttons.
Proof. unfold mouse_of. cbn [decode_all MOUSE_FORMAT]. eauto 6. Qed.

(** C1. Round trip of both frame kinds: for a sequence number in
    [0,65535], [unpack (pack_heartbeat seq)] is the heartbeat record with
    that sequence number; for fields in their ranges,
    [unpack (pack_mouse_absolute ...)] is the mouse_absolute record with
    exactly those fields.  Both packs succeed on such values. *)
Theorem C1_pack_unpack_roundtrip :
  (forall sequence : Z,
      0 <= sequence <= 65535 ->
      exists frame,
        pack_heartbeat sequence = Ok frame
        /\ unpack frame = Ok (Some (Heartbeat sequence)))
  /\
  (forall sequence x y wheel_x wheel_y buttons : Z,
      0 <= sequence <= 65535 ->
      0 <= x <= 65535 -> 0 <= y <= 65535 ->
      -128 <= wheel_x <= 127 -> -128 <= wheel_y <= 127 ->
      0 <= buttons <= 255 ->
      exists frame,
        pack_mouse_absolute sequence x y wheel_x wheel_y buttons = Ok frame
        /\ unpack frame
           = Ok (Some (MouseAbsolute sequence x y wheel_x wheel_y buttons))).
Proof.
  split.
  - intros sequence Hs.
    destruct (pack_in_range HEADER_FORMAT [sequence; TYPE_HEARTBEAT]) as [frame Hf].
    { in_range_all. }
    exists frame. split; [exact Hf|].
    rewrite <- (app_nil_r frame). apply unpack_heartbeat_frame, Hf.
  - intros sequence x y wheel_x wheel_y buttons Hs Hx Hy Hwx Hwy Hb.
    destruct (pack_in_range HEADER_FORMAT [sequence; TYPE_MOUSE_ABSOLUTE])
      as [header Hh].
    { in_range_all. }
    destruct (pack_in_range MOUSE_FORMAT [x; y; wheel_x; wheel_y; buttons])
      as [payload Hp].
    { in_range_all. }
    assert (Hf : pack_mouse_absolute sequence x y wheel_x wheel_y buttons
                 = Ok (header ++ payload)).
    { unfold pack_mouse_absolute. rewrite Hh, Hp. reflexivity. }
    exists (header ++ payload). split; [exact Hf|].
    rewrite <- (app_nil_r (header ++ payload)). apply unpack_mouse_frame, Hf.
Qed.

Lemma C1_witness :
  (exists frame,
      pack_heartbeat 65535 = Ok frame
      /\ unpack frame = Ok (Some (Heartbeat 65535)))
  /\ (exists frame,
         pack_mouse_absolute 513 100 200 1 (-1) 5 = Ok frame
         /\ unpack frame = Ok (Some (MouseAbsolute 513 100 200 1 (-1) 5))).
Proof.
  split.
  - apply (proj1 C1_pack_unpack_roundtrip 65535). lia.
  - apply (proj2 C1_pack_unpack_roundtrip 513 100 200 1 (-1) 5); lia.
Defined.

(** C2, as the code has it. [unpack] returns on every byte string and
    never raises; it gives no decode exactly when the input is shorter
    than the 3-byte header, or its type byte is neither 0 nor 1, or its
    type byte is 1 and it is shorter than 10 bytes: the header and the
    7 bytes of ["!HHbbB"]. *)
Theorem C2_unpack_total (data : list byte) :
  exists r,
    unpack data = Ok r /\ (r = None <-> no_decode_when 10 data).
Proof.
  destruct (Nat.lt_ge_cases (length data) 3) as [Hlt|Hge].
  - exists None. split; [apply unpack_short, Hlt|].
    split; [intros _; left; exact Hlt | reflexivity].
  - destruct (header_inv data Hge) as (b0 & b1 & b2 & rest & ->).
    rewrite unpack_header. unfold no_decode_when.
    rewrite type_byte_header. cbn [length].
    destruct (Z.eqb_spec (byte_to_Z b2) 0) as [H0|H0].
    { eexists. split; [reflexivity|]. split; [discriminate|].
      intros [?|[(ty & [= <-] & ? & ?)|[[= ?] _]]]; [lia | congruence | congruence]. }
    destruct (Z.eqb_spec (byte_to_Z b2) 1) as [H1|H1].
    + destruct (Nat.ltb_spec (length rest) 7) as [Hl|Hl].
      * exists None. split; [reflexivity|]. split; [|reflexivity].
        intros _. right. right. split; [congruence | lia].
      * eexists. split; [reflexivity|]. split; [discriminate|].
        intros [?|[(ty & [= <-] & ? & ?)|[_ ?]]]; [lia | congruence | lia].
    + exists None. split; [reflexivity|]. split; [|reflexivity].
      intros _. right. left. exists (byte_to_Z b2). auto.
Qed.

(** C2 as stated fails: an 8-byte datagram of type 1 gives no decode,
    though it has a header, its type byte is 1 and it is not shorter
    than 8 bytes. *)
Lemma C2_counterexample :
  unpack short_mouse_datagram = Ok None
  /\ length short_mouse_datagram = 8%nat
  /\ type_byte short_mouse_datagram = Some 1
  /\ ~ no_decode_when 8 short_mouse_datagram.
Proof.
  repeat split.
  intros [H|[(ty & Hty & _ & H1)|[_ H]]].
  - cbn in H. lia.
  - change (Some 1 = Some ty) in Hty. congruence.
  - cbn in H. lia.
Qed.

(** C10, as the code has it. [unpack] ignores trailing bytes: an input
    of at least 3 bytes whose type byte is 0 decodes as a heartbeat, the
    same as its first 3 bytes do; an input of at least 10 bytes whose
    type byte is 1 decodes as a mouse_absolute frame, the same as its
    first 10 bytes do. *)
Theorem C10_trailing_bytes_ignored (data : list byte) :
  ((3 <= length data)%nat -> type_byte data = Some 0 ->
     (exists sequence, unpack data = Ok (Some (Heartbeat sequence)))
     /\ unpack data = unpack (take 3 data))
  /\
  ((10 <= length data)%nat -> type_byte data = Some 1 ->
     (exists sequence x y wheel_x wheel_y buttons,
         unpack data
         = Ok (Some (MouseAbsolute sequence x y wheel_x wheel_y buttons)))
     /\ unpack data = unpack (take 10 data)).
Proof.
  split; intros Hlen Hty.
  - destruct (header_inv data Hlen) as (b0 & b1 & b2 & rest & ->).
    rewrite type_byte_header in Hty. injection Hty as Hty.
    change (take 3 (b0 :: b1 :: b2 :: rest)) with [b0; b1; b2].
    rewrite !unpack_header, Hty. cbn [Z.eqb]. eauto.
  - destruct (header_inv data ltac:(lia)) as (b0 & b1 & b2 & rest & ->).
    rewrite type_byte_header in Hty. injection Hty as Hty.
    cbn [length] in Hlen.
    change (take 10 (b0 :: b1 :: b2 :: rest))
      with (b0 :: b1 :: b2 :: take 7 rest).
    rewrite !unpack_header, Hty. cbn [Z.eqb Pos.eqb].
    rewrite length_take, take_take.
    replace (7 `min` length rest)%nat with 7%nat by lia.
    replace (7 `min` 7)%nat with 7%nat by lia.
    destruct (Nat.ltb_spec (length rest) 7) as [?|_]; [lia|].
    change (Nat.ltb 7 7) with false.
    split; [|reflexivity].
    destruct (mouse_of_is_mouse (be_uint [b0; b1]) (take 7 rest))
      as (x & y & wx & wy & b & ->).
    eauto 7.
Qed.

Lemma C10_witness :
  let data := [x01; x02; x00; xff; xff] in
  let data' := [x01; x02; x01; x00; x64; x00; xc8; x01; xff; x05; xaa; xbb] in
  ((exists sequence, unpack data = Ok (Some (Heartbeat sequence)))
   /\ unpack data = unpack (take 3 data))
  /\ ((exists sequence x y wheel_x wheel_y buttons,
          unpack data'
          = Ok (Some (MouseAbsolute sequence x y wheel_x wheel_y buttons)))
      /\ unpack data' = unpack (take 10 data')).
Proof.
  intros data data'. split.
  - apply (proj1 (C10_trailing_bytes_ignored data)); [cbn; lia | reflexivity].
  - apply (proj2 (C10_trailing_bytes_ignored data')); [cbn; lia | reflexivity].
Defined.

(** C10 as stated fails for the mouse frame: an input of 8 bytes whose
    type byte is 1 does not decode. *)
Lemma C10_counterexample :
  (8 <= length short_mouse_datagram)%nat
  /\ type_byte short_mouse_datagram = Some 1
  /\ unpack short_mouse_datagram = Ok None
  /\ ~ (exists sequence x y wheel_x wheel_y buttons,
           unpack short_mouse_datagram
           = Ok (Some (MouseAbsolute sequence x y wheel_x wheel_y buttons))).
Proof.
  repeat split; [cbn; lia|].
  intros (sq & x & y & wx & wy & b & H). discriminate H.
Qed.

End CodecClaims.

(** ** The registry *)

Section ManagerFacts.
Import NetworkManager.

Implicit Types (m : NetworkManager.t) (c : call) (cs : list call).

Lemma connect_to_peer_known m name address port bind_raises :
  is_Some (peers m !! name) ->
  connect_to_peer name address port bind_raises m = (m, [], Ok tt).
Proof. intros [p Hp]. unfold connect_to_peer. rewrite Hp. reflexivity. Qed.

Lemma connect_to_peer_fresh m name address port bind_raises :
  peers m !! name = None ->
  (connect_to_peer name address port bind_raises m).1.1
  = set_peers (<[name := new_peer m name address port]> (peers m))
      (set_next_port_offset (next_port_offset m + 1) m).
Proof.
  intros Hp. unfold connect_to_peer. rewrite Hp.
  destruct bind_raises; reflexivity.
Qed.

Lemma connect_lookup_other c m (name : string) :
  name <> c_name c -> peers (connect c m) !! name = peers m !! name.
Proof.
  intros Hne. unfold connect.
  destruct (peers m !! c_name c) as [p|] eqn:Hp.
  - rewrite connect_to_peer_known by eauto. reflexivity.
  - rewrite connect_to_peer_fresh by assumption. cbn [peers set_peers].
    apply lookup_insert_ne. congruence.
Qed.

Lemma connect_all_cons c cs m :
  connect_all (c :: cs) m = connect_all cs (connect c m).
Proof. reflexivity. Qed.

Lemma connect_all_lookup_other cs : forall m (name : string),
  name ∉ c_name <$> cs ->
  peers (connect_all cs m) !! name = peers m !! name.
Proof.
  induction cs as [|c cs IH]; intros m name Hn; [reflexivity|].
  rewrite fmap_cons, not_elem_of_cons in Hn. destruct Hn as [Hne Hn].
  rewrite connect_all_cons, IH by assumption.
  apply connect_lookup_other, Hne.
Qed.

(** Calls for new, distinct names hand out consecutive offsets. *)
Lemma connect_all_fresh cs : forall m,
  NoDup (c_name <$> cs) ->
  (forall name : string, name ∈ c_name <$> cs -> peers m !! name = None) ->
  let m' := connect_all cs m in
  base_tcp_port m' = base_tcp_port m
  /\ base_udp_port m' = base_udp_port m
  /\ next_port_offset m' = next_port_offset m + Z.of_nat (length cs)
  /\ forall (k : nat) c, cs !! k = Some c ->
       exists p,
         peers m' !! c_name c = Some p
         /\ PeerConnection.local_tcp_port p
            = base_tcp_port m + next_port_offset m + Z.of_nat k
         /\ PeerConnection.local_udp_port p
            = base_udp_port m + next_port_offset m + Z.of_nat k.
Proof.
  induction cs as [|c cs IH]; intros m Hnd Hfresh; cbn zeta.
  - cbn. repeat split; try lia. intros k c Hk. discriminate.
  - rewrite fmap_cons in Hnd. apply NoDup_cons in Hnd as [Hc Hnd].
    assert (Hm : peers m !! c_name c = None)
      by (apply Hfresh; rewrite fmap_cons; left).
    rewrite connect_all_cons.
    assert (Hc1 : connect c m
                  = set_peers (<[c_name c := new_peer m (c_name c) (c_address c)
                                               (c_port c)]> (peers m))
                      (set_next_port_offset (next_port_offset m + 1) m))
      by (apply connect_to_peer_fresh, Hm).
    destruct (IH (connect c m) Hnd) as (Ht & Hu & Ho & Hk).
    { intros name Hin. rewrite connect_lookup_other.
      - apply Hfresh. rewrite fmap_cons. right. exact Hin.
      - intros ->. contradiction. }
    assert (Hb : base_tcp_port (connect c m) = base_tcp_port m
                 /\ base_udp_port (connect c m) = base_udp_port m
                 /\ next_port_offset (connect c m) = next_port_offset m + 1)
      by (rewrite Hc1; repeat split).
    destruct Hb as (Hb1 & Hb2 & Hb3).
    rewrite Hb1, Hb2, Hb3 in *.
    repeat split; [exact Ht | exact Hu | rewrite Ho; cbn [length]; lia |].
    intros [|k] c' Hl.
    + injection Hl as <-.
      rewrite connect_all_lookup_other by assumption.
      rewrite Hc1. cbn [peers set_peers]. rewrite lookup_insert_eq.
      eexists. split; [reflexivity|]. cbn. lia.
    + destruct (Hk k c' Hl) as (p & Hp & Hpt & Hpu).
      exists p. repeat split; [exact Hp | lia | lia].
Qed.

End ManagerFacts.

Section ManagerClaims.
Import NetworkManager.

Implicit Types (m : NetworkManager.t) (c : call) (cs : list call).

(** C6. [connect_to_peer] for a name that already has a session returns
    without effect: the manager is returned as it was (registry, its
    size and the next port offset included), nothing is bound or started
    and nothing is raised. *)
Theorem C6_connect_idempotent m (name address : string) (port : Z)
    (bind_raises : bool) :
  is_Some (peers m !! name) ->
  let '(m', ev, r) := connect_to_peer name address port bind_raises m in
  m' = m /\ ev = [] /\ r = Ok tt
  /\ peers m' = peers m
  /\ size (peers m') = size (peers m)
  /\ next_port_offset m' = next_port_offset m.
Proof.
  intros Hin. rewrite connect_to_peer_known by assumption.
  repeat split.
Qed.

Lemma C6_witness :
  let m := connect peer_B manager0 in
  let '(m', ev, r) := connect_to_peer "B" "10.0.0.9" 40000 true m in
  m' = m /\ ev = [] /\ r = Ok tt
  /\ peers m' = peers m
  /\ size (peers m') = size (peers m)
  /\ next_port_offset m' = next_port_offset m.
Proof.
  intros m.
  apply (C6_connect_idempotent m "B" "10.0.0.9" 40000 true).
  unfold m, connect, peer_B, manager0.
  rewrite connect_to_peer_fresh by reflexivity.
  cbn [peers set_peers c_name]. rewrite lookup_insert_eq. eauto.
Defined.

(** Calling twice with the same name: the second call changes nothing,
    whatever the first one did. *)
Lemma connect_twice c c' m :
  c_name c' = c_name c -> connect c' (connect c m) = connect c m.
Proof.
  intros Hn. unfold connect at 1. rewrite connect_to_peer_known; [reflexivity|].
  rewrite Hn. unfold connect.
  destruct (peers m !! c_name c) as [p|] eqn:Hp.
  - rewrite connect_to_peer_known by eauto. cbn. rewrite Hp. eauto.
  - rewrite connect_to_peer_fresh by assumption.
    cbn [peers set_peers]. rewrite lookup_insert_eq. eauto.
Qed.

(** C7. From a new manager, N calls of [connect_to_peer] with N distinct
    names leave the offset at N and give the k-th peer (from 0) the
    local TCP port 50000 + k and the local UDP port 51000 + k; the ports
    of two different peers differ. *)
Theorem C7_local_ports_consecutive (user : string) (cb : option callback) cs :
  NoDup (c_name <$> cs) ->
  let m := connect_all cs (init user cb) in
  next_port_offset m = Z.of_nat (length cs)
  /\ (forall (k : nat) c, cs !! k = Some c ->
        exists p,
          peers m !! c_name c = Some p
          /\ PeerConnection.local_tcp_port p = 50000 + Z.of_nat k
          /\ PeerConnection.local_udp_port p = 51000 + Z.of_nat k)
  /\ (forall (j k : nat) cj ck pj pk,
        cs !! j = Some cj -> cs !! k = Some ck -> j <> k ->
        peers m !! c_name cj = Some pj -> peers m !! c_name ck = Some pk ->
        PeerConnection.local_tcp_port pj <> PeerConnection.local_tcp_port pk
        /\ PeerConnection.local_udp_port pj <> PeerConnection.local_udp_port pk).
Proof.
  intros Hnd m.
  destruct (connect_all_fresh cs (init user cb) Hnd) as (_ & _ & Ho & Hk).
  { intros name _. apply lookup_empty. }
  fold m in Ho, Hk. cbn in Ho, Hk.
  split; [exact Ho | split; [exact Hk|]].
  intros j k cj ck pj pk Hj Hck Hjk Hpj Hpk.
  destruct (Hk j cj Hj) as (pj' & Hpj' & Htj & Huj).
  destruct (Hk k ck Hck) as (pk' & Hpk' & Htk & Huk).
  assert (pj' = pj) by congruence. assert (pk' = pk) by congruence. subst.
  lia.
Qed.

Lemma C7_witness :
  let cs := [peer_B; mkCall "C" "10.0.0.6" 0 true; mkCall "D" "10.0.0.7" 50000 false] in
  let m := connect_all cs manager0 in
  next_port_offset m = 3
  /\ (forall (k : nat) c, cs !! k = Some c ->
        exists p,
          peers m !! c_name c = Some p
          /\ PeerConnection.local_tcp_port p = 50000 + Z.of_nat k
          /\ PeerConnection.local_udp_port p = 51000 + Z.of_nat k)
  /\ (forall (j k : nat) cj ck pj pk,
        cs !! j = Some cj -> cs !! k = Some ck -> j <> k ->
        peers m !! c_name cj = Some pj -> peers m !! c_name ck = Some pk ->
        PeerConnection.local_tcp_port pj <> PeerConnection.local_tcp_port pk
        /\ PeerConnection.local_udp_port pj <> PeerConnection.local_udp_port pk).
Proof.
  intros cs.
  apply (C7_local_ports_consecutive "alice" (Some (HostCallback 0)) cs).
  unfold cs. cbn.
  repeat (apply NoDup_cons_2; [rewrite ?elem_of_cons, elem_of_nil; intuition discriminate|]).
  apply NoDup_nil_2.
Defined.

(** C8. For a new name the registered session has remote TCP port
    [announced] and remote UDP port [announced + 1000] when [announced]
    is positive, and 50000 and 51000 otherwise. *)
Theorem C8_remote_ports m (name address : string) (announced : Z)
    (bind_raises : bool) :
  peers m !! name = None ->
  exists p,
    peers (connect_to_peer name address announced bind_raises m).1.1 !! name
    = Some p
    /\ (0 < announced ->
        PeerConnection.tcp_port p = announced
        /\ PeerConnection.udp_port p = announced + 1000)
    /\ (announced <= 0 ->
        PeerConnection.tcp_port p = 50000
        /\ PeerConnection.udp_port p = 51000).
Proof.
  intros Hnew. rewrite connect_to_peer_fresh by assumption.
  cbn [peers set_peers]. rewrite lookup_insert_eq.
  eexists. split; [reflexivity|].
  cbn. destruct (Z.ltb_spec 0 announced); split; intros; (lia || auto).
Qed.

Lemma C8_witness :
  exists p,
    peers (connect_to_peer "B" "10.0.0.5" 51000 false manager0).1.1 !! "B"
    = Some p
    /\ (0 < 51000 ->
        PeerConnection.tcp_port p = 51000
        /\ PeerConnection.udp_port p = 51000 + 1000)
    /\ (51000 <= 0 ->
        PeerConnection.tcp_port p = 50000
        /\ PeerConnection.udp_port p = 51000).
Proof.
  apply (C8_remote_ports manager0 "B" "10.0.0.5" 51000 false).
  reflexivity.
Defined.

(** The scenario of the specification, evaluated. *)
Example connect_peer_B :
  exists p,
    peers (connect peer_B manager0) !! "B" = Some p
    /\ PeerConnection.tcp_port p = 51000
    /\ PeerConnection.udp_port p = 52000
    /\ PeerConnection.local_tcp_port p = 50000
    /\ PeerConnection.local_udp_port p = 51000.
Proof.
  unfold connect, peer_B, manager0.
  rewrite connect_to_peer_fresh by reflexivity.
  cbn [peers set_peers c_name]. rewrite lookup_insert_eq.
  eexists. split; [reflexivity|]. repeat split.
Qed.

End ManagerClaims.

(** ** The telemetry snapshot *)

Section SnapshotClaims.
Import PeerConnection.

Implicit Types (self p : PeerConnection.t).

(** C9, as the code has it. [update_mouse_state] stores its five
    arguments as they are, on a session and, through the manager, on
    every registered session; it does not clamp.  So after a call the
    snapshot lies in the clamp ranges exactly when the arguments do. *)
Theorem C9_snapshot_holds_arguments (x y wheel_x wheel_y buttons : Z) :
  (forall p,
      snapshot (update_mouse_state x y wheel_x wheel_y buttons p)
      = (x, y, wheel_x, wheel_y, buttons))
  /\ (forall p,
         snapshot_in_range (update_mouse_state x y wheel_x wheel_y buttons p)
         <-> args_in_range x y wheel_x wheel_y buttons)
  /\ (forall (m : NetworkManager.t) (name : string) p,
         NetworkManager.peers
           (NetworkManager.update_mouse_state x y wheel_x wheel_y buttons m)
           !! name = Some p ->
         snapshot p = (x, y, wheel_x, wheel_y, buttons)
         /\ (snapshot_in_range p <-> args_in_range x y wheel_x wheel_y buttons)).
Proof.
  split; [reflexivity | split; [reflexivity|]].
  intros m name p Hp.
  unfold NetworkManager.update_mouse_state in Hp.
  cbn [NetworkManager.peers NetworkManager.set_peers] in Hp.
  rewrite lookup_fmap in Hp.
  destruct (NetworkManager.peers m !! name) as [q|]; [|discriminate].
  injection Hp as <-. split; reflexivity.
Qed.

Lemma C9_witness :
  let m := NetworkManager.update_mouse_state 100 200 1 (-1) 1
             (NetworkManager.connect peer_B manager0) in
  exists p,
    NetworkManager.peers m !! "B" = Some p
    /\ snapshot p = (100, 200, 1, -1, 1)
    /\ (snapshot_in_range p <-> args_in_range 100 200 1 (-1) 1).
Proof.
  intros m.
  assert (Hp : NetworkManager.peers m !! "B"
               = Some (update_mouse_state 100 200 1 (-1) 1 session_B)).
  { unfold m, NetworkManager.update_mouse_state, NetworkManager.connect, peer_B.
    rewrite connect_to_peer_fresh by reflexivity.
    cbn [NetworkManager.peers NetworkManager.set_peers NetworkManager.c_name].
    rewrite lookup_fmap, lookup_insert_eq. reflexivity. }
  eexists. split; [exact Hp|].
  exact (proj2 (proj2 (C9_snapshot_holds_arguments 100 200 1 (-1) 1))
           _ _ _ Hp).
Defined.

(** C9 as stated fails: arguments outside the ranges are stored as they
    are, on a session and through the manager. *)
Lemma C9_counterexample :
  let p := update_mouse_state 70000 (-5) 300 (-300) 256 session_B in
  let m := NetworkManager.update_mouse_state 70000 (-5) 300 (-300) 256
             (NetworkManager.connect peer_B manager0) in
  snapshot p = (70000, -5, 300, -300, 256)
  /\ ~ snapshot_in_range p
  /\ NetworkManager.peers m !! "B" = Some p.
Proof.
  intros p m. split; [reflexivity|]. split.
  - unfold snapshot_in_range, args_in_range. cbn. lia.
  - unfold m, NetworkManager.update_mouse_state, NetworkManager.connect, peer_B.
    rewrite connect_to_peer_fresh by reflexivity.
    cbn [NetworkManager.peers NetworkManager.set_peers NetworkManager.c_name].
    rewrite lookup_fmap, lookup_insert_eq. reflexivity.
Qed.

Lemma frames_sent_app (ev1 ev2 : list event) :
  frames_sent (ev1 ++ ev2) = frames_sent ev1 ++ frames_sent ev2.
Proof. apply omap_app. Qed.

Lemma udp_transmit_iter_snapshot (w : world) self :
  snapshot (udp_transmit_iter w self).1 = snapshot self.
Proof.
  unfold udp_transmit_iter.
  destruct (UDPPacket.pack_mouse_absolute _ _ _ _ _ _); [|reflexivity].
  destruct (w_raises w); reflexivity.
Qed.

Lemma udp_transmit_iter_frames (w : world) self :
  Forall (fun frame =>
            UDPPacket.unpack frame
            = Ok (Some (UDPPacket.MouseAbsolute (tx_sequence self)
                          (mouse_x self) (mouse_y self)
                          (mouse_wheel_x self) (mouse_wheel_y self)
                          (mouse_buttons self))))
    (frames_sent (udp_transmit_iter w self).2).
Proof.
  unfold udp_transmit_iter.
  destruct (UDPPacket.pack_mouse_absolute _ _ _ _ _ _) as [packet|] eqn:Hp;
    [|constructor].
  destruct (w_raises w); [constructor|].
  cbn. constructor; [|constructor].
  rewrite <- (app_nil_r packet). apply unpack_mouse_frame, Hp.
Qed.

(** C4, as the code has it. The transmit loop never writes the
    snapshot: after any number of iterations the wheel-delta fields (and
    the other snapshot fields) are what they were, and every frame the
    loop has sent carries that same wheel delta. *)
Theorem C4_transmit_keeps_wheel_delta (ws : list world) self :
  snapshot (udp_transmit_loop ws self).1 = snapshot self
  /\ mouse_wheel_x (udp_transmit_loop ws self).1 = mouse_wheel_x self
  /\ mouse_wheel_y (udp_transmit_loop ws self).1 = mouse_wheel_y self
  /\ Forall (fun frame =>
               exists sequence,
                 UDPPacket.unpack frame
                 = Ok (Some (UDPPacket.MouseAbsolute sequence
                               (mouse_x self) (mouse_y self)
                               (mouse_wheel_x self) (mouse_wheel_y self)
                               (mouse_buttons self))))
       (frames_sent (udp_transmit_loop ws self).2).
Proof.
  assert (H : snapshot (udp_transmit_loop ws self).1 = snapshot self
              /\ Forall (fun frame =>
                    exists sequence,
                      UDPPacket.unpack frame
                      = Ok (Some (UDPPacket.MouseAbsolute sequence
                                    (mouse_x self) (mouse_y self)
                                    (mouse_wheel_x self) (mouse_wheel_y self)
                                    (mouse_buttons self))))
                   (frames_sent (udp_transmit_loop ws self).2)).
  { revert self. induction ws as [|w ws IH]; intros self; cbn [udp_transmit_loop].
    - split; [reflexivity | constructor].
    - destruct (w_running w); [|split; [reflexivity | constructor]].
      pose proof (udp_transmit_iter_snapshot w self) as Hs.
      pose proof (udp_transmit_iter_frames w self) as Hf.
      destruct (udp_transmit_iter w self) as [self1 ev1]. cbn [fst snd] in Hs, Hf.
      destruct (IH self1) as [Hs2 Hf2].
      destruct (udp_transmit_loop ws self1) as [self2 ev2]. cbn [fst snd] in *.
      split; [congruence|].
      rewrite frames_sent_app. apply Forall_app. split.
      + eapply Forall_impl; [exact Hf|]. cbn. eauto.
      + unfold snapshot in Hs. injection Hs as Hx Hy Hwx Hwy Hb.
        rewrite Hx, Hy, Hwx, Hwy, Hb in Hf2. exact Hf2. }
  destruct H as [Hs Hf]. split; [exact Hs|].
  unfold snapshot in Hs. injection Hs as Hx Hy Hwx Hwy Hb.
  repeat split; assumption.
Qed.

(** C4 as stated fails: a wheel delta of (1, -1) is still in the
    snapshot after an iteration has sent it, and the next iteration
    sends it again. *)
Lemma C4_counterexample :
  let self := update_mouse_state 100 200 1 (-1) 1 session_B in
  let w := mkWorld true false [] 1 0 0 0 in
  let '(self1, ev1) := udp_transmit_iter w self in
  let '(self2, ev2) := udp_transmit_iter w self1 in
  (mouse_wheel_x self1, mouse_wheel_y self1) = (1, -1)
  /\ frames_sent ev1 = [[x00; x00; x01; x00; x64; x00; xc8; x01; xff; x01]]
  /\ frames_sent ev2 = [[x00; x01; x01; x00; x64; x00; xc8; x01; xff; x01]]
  /\ UDPPacket.unpack [x00; x01; x01; x00; x64; x00; xc8; x01; xff; x01]
     = Ok (Some (UDPPacket.MouseAbsolute 1 100 200 1 (-1) 1)).
Proof. vm_compute. repeat split. Qed.

End SnapshotClaims.

(** ** The liveness thread *)

Section LivenessClaims.
Import PeerConnection.
Context `{F : FloatArith}.

Implicit Types (self : PeerConnection.t) (p : poll) (polls : list poll).





(** The loop over [pre ++ post], when it is still running after [pre]. *)
Lemma check_liveness_app self pre post ev :
  check_liveness self pre = (ev, false) ->
  check_liveness self (pre ++ post)
  = (ev ++ (check_liveness self post).1, (check_liveness self post).2).
Proof.
  revert ev. induction pre as [|p pre IH]; intros ev; cbn [check_liveness app].
  - intros [= <-]. destruct (check_liveness self post). reflexivity.
  - destruct (p_running p); [|discriminate].
    destruct (timed_out p); [discriminate|].
    destruct (check_liveness self pre) as [ev' r'] eqn:E.
    intros [= <- ->]. rewrite (IH ev' eq_refl). reflexivity.
Qed.

Lemma check_liveness_monitoring self pre ev :
  check_liveness self pre = (ev, false) -> disconnects ev = 0%nat.
Proof.
  revert ev. induction pre as [|p pre IH]; intros ev; cbn [check_liveness].
  - intros [= <-]. reflexivity.
  - destruct (p_running p); [|discriminate].
    destruct (timed_out p); [discriminate|].
    destruct (check_liveness self pre) as [ev' r'] eqn:E.
    intros [= <- ->]. exact (IH ev' eq_refl).
Qed.


(** A pass in which the first datagram arrives between the test of
    line 322 and the guard of line 325 takes the 999 of line 322 for the
    time of silence. *)
Example timed_out_torn_read :
  timed_out (mkPoll true 100 0 100 100) = true.
Proof. reflexivity. Qed.




End LivenessClaims.

Section LivenessWitness.
Import PeerConnection.


End LivenessWitness.

(** ** The TCP control thread *)

Section TcpFacts.
Import PeerConnection.
Context `{J : TCPMessage.Json}.

Implicit Types (st : tcp_state) (w : world) (ws : list world)
  (ev hist : list event).

Lemma flag_after_app f ev1 ev2 :
  flag_after f (ev1 ++ ev2) = flag_after (flag_after f ev1) ev2.
Proof. apply fold_left_app. Qed.

Lemma reads_ok_app f ev1 ev2 :
  reads_ok f ev1 -> reads_ok (flag_after f ev1) ev2 -> reads_ok f (ev1 ++ ev2).
Proof.
  revert f. induction ev1 as [|e ev1 IH]; intros f; cbn [reads_ok app];
    [auto|].
  intros [He H1] H2. split; [exact He|]. apply IH; assumption.
Qed.

Lemma sets_ok_app self hist ev1 ev2 :
  sets_ok self hist ev1 -> sets_ok self (rev ev1 ++ hist) ev2 ->
  sets_ok self hist (ev1 ++ ev2).
Proof.
  revert hist. induction ev1 as [|e ev1 IH]; intros hist; cbn [sets_ok app rev];
    [auto|].
  intros [He H1] H2. split; [exact He|]. apply IH; [exact H1|].
  rewrite <- app_assoc in H2. exact H2.
Qed.

Lemma reads_ok_split f pre e post :
  reads_ok f (pre ++ e :: post) -> is_read e -> flag_after f pre = true.
Proof.
  revert f. induction pre as [|e' pre IH]; intros f; cbn [reads_ok app].
  - intros [He _] Hr. exact (He Hr).
  - intros [_ H] Hr. exact (IH _ H Hr).
Qed.

Lemma sets_ok_split self hist pre post :
  sets_ok self hist (pre ++ EvSetConnected true :: post) ->
  exists tl, rev pre ++ hist = handshake_event self :: connect_event self :: tl.
Proof.
  revert hist. induction pre as [|e pre IH]; intros hist; cbn [sets_ok app rev].
  - intros [He _]. exact (He eq_refl).
  - intros [_ H]. rewrite <- app_assoc. exact (IH _ H).
Qed.

Lemma tcp_run_cons w ws st :
  tcp_run (w :: ws) st
  = ((tcp_run ws (tcp_step w st).1).1,
     (tcp_step w st).2 ++ (tcp_run ws (tcp_step w st).1).2).
Proof.
  cbn [tcp_run]. destruct (tcp_step w st) as [st1 ev1].
  cbn [fst snd]. destruct (tcp_run ws st1). reflexivity.
Qed.

Lemma tcp_run_app ws1 ws2 st :
  tcp_run (ws1 ++ ws2) st
  = ((tcp_run ws2 (tcp_run ws1 st).1).1,
     (tcp_run ws1 st).2 ++ (tcp_run ws2 (tcp_run ws1 st).1).2).
Proof.
  revert st. induction ws1 as [|w ws1 IH]; intros st.
  - cbn [app tcp_run fst snd]. destruct (tcp_run ws2 st). reflexivity.
  - cbn [app]. rewrite !tcp_run_cons, IH. cbn [fst snd].
    rewrite app_assoc. reflexivity.
Qed.

Lemma step_loop_running w st :
  tcp_at st = TcpLoop -> w_running w = true ->
  tcp_step w st = (tcp_goto TcpConnect st, []).
Proof. intros Hat Hr. unfold tcp_step. rewrite Hat, Hr. reflexivity. Qed.

Lemma step_connect_ok w st :
  tcp_at st = TcpConnect -> w_raises w = false ->
  tcp_step w st
  = (mkTcp TcpSendHandshake (tcp_buffer st)
       (set_tcp_socket (Some SockStream) (tcp_self st)),
     [connect_event (tcp_self st)]).
Proof. intros Hat Hr. unfold tcp_step. rewrite Hat, Hr. reflexivity. Qed.

Lemma step_send_handshake_ok w st :
  tcp_at st = TcpSendHandshake -> w_raises w = false ->
  tcp_step w st
  = (mkTcp TcpReadLoop [] (set_connected true (tcp_self st)),
     [handshake_event (tcp_self st); EvSetConnected true]).
Proof. intros Hat Hr. unfold tcp_step. rewrite Hat, Hr. reflexivity. Qed.

Lemma step_read_loop_running w st :
  tcp_at st = TcpReadLoop -> w_running w = true ->
  tcp_step w st = (tcp_goto TcpRecv st, []).
Proof. intros Hat Hr. unfold tcp_step. rewrite Hat, Hr. reflexivity. Qed.

Lemma step_recv_ok w st :
  tcp_at st = TcpRecv -> w_raises w = false ->
  exists tail, (tcp_step w st).2 = EvRecv (w_chunk w) :: tail.
Proof.
  intros Hat Hr. unfold tcp_step. rewrite Hat, Hr.
  repeat case_match; simplify_eq/=; eauto.
Qed.

Lemma config_events (a b : PeerConnection.t) :
  config a = config b ->
  connect_event a = connect_event b /\ handshake_event a = handshake_event b.
Proof.
  unfold config, connect_event, handshake_event. intros [= -> -> -> -> ->].
  split; reflexivity.
Qed.

Ltac tcp_cases st w :=
  unfold tcp_step, tcp_except, tcp_goto;
  destruct st as [pc buffer self]; cbn [tcp_at tcp_buffer tcp_self];
  destruct pc; repeat case_match; simplify_eq/=.

Lemma tcp_step_config w st :
  config (tcp_self (tcp_step w st).1) = config (tcp_self st).
Proof. tcp_cases st w; reflexivity. Qed.

Lemma tcp_step_reads w st f :
  (reading (tcp_at st) -> f = true) ->
  reads_ok f (tcp_step w st).2
  /\ (reading (tcp_at (tcp_step w st).1) ->
      flag_after f (tcp_step w st).2 = true).
Proof.
  unfold reading. intros Hf. tcp_cases st w;
    repeat match goal with
      | |- context [close_of ?s] => destruct s; cbn [close_of app]
      end;
    cbn; intuition (try discriminate; auto).
Qed.

Lemma tcp_step_sets w st self0 hist :
  config (tcp_self st) = config self0 ->
  (tcp_at st = TcpSendHandshake -> exists tl, hist = connect_event self0 :: tl) ->
  sets_ok self0 hist (tcp_step w st).2
  /\ (tcp_at (tcp_step w st).1 = TcpSendHandshake ->
      exists tl, rev (tcp_step w st).2 ++ hist = connect_event self0 :: tl).
Proof.
  unfold config, connect_event, handshake_event. intros Hc Hh.
  tcp_cases st w;
    repeat match goal with
      | |- context [close_of ?s] => destruct s; cbn [close_of app]
      end;
    cbn; intuition (try discriminate; eauto).
  - exists hist. congruence.
  - match goal with H : exists tl, hist = _ |- _ => destruct H as [tl ->] end.
    exists tl. unfold handshake_event, connect_event. congruence.
Qed.

Lemma tcp_run_config ws : forall st,
  config (tcp_self (tcp_run ws st).1) = config (tcp_self st).
Proof.
  induction ws as [|w ws IH]; intros st; [reflexivity|].
  rewrite tcp_run_cons. cbn [fst]. rewrite IH. apply tcp_step_config.
Qed.

Lemma tcp_run_reads ws : forall st f,
  (reading (tcp_at st) -> f = true) -> reads_ok f (tcp_run ws st).2.
Proof.
  induction ws as [|w ws IH]; intros st f Hf; [exact I|].
  rewrite tcp_run_cons. cbn [snd].
  destruct (tcp_step_reads w st f Hf) as [H1 H2].
  apply reads_ok_app; [exact H1|]. apply IH, H2.
Qed.

Lemma tcp_run_sets ws self0 : forall st hist,
  config (tcp_self st) = config self0 ->
  (tcp_at st = TcpSendHandshake -> exists tl, hist = connect_event self0 :: tl) ->
  sets_ok self0 hist (tcp_run ws st).2.
Proof.
  induction ws as [|w ws IH]; intros st hist Hc Hh; [exact I|].
  rewrite tcp_run_cons. cbn [snd].
  destruct (tcp_step_sets w st self0 hist Hc Hh) as [H1 H2].
  apply sets_ok_app; [exact H1|]. apply IH; [|exact H2].
  rewrite tcp_step_config. exact Hc.
Qed.

End TcpFacts.

Section TcpClaims.
Import PeerConnection.

Implicit Types (ev pre post : list event).

Lemma flag_after_set ev : forall f,
  flag_after f ev = true ->
  f = true \/
  exists pre post,
    ev = pre ++ EvSetConnected true :: post /\ Forall (fun e => ~ is_set e) post.
Proof.
  induction ev as [|e ev IH] using rev_ind; intros f; [cbn; auto|].
  rewrite flag_after_app. cbn [flag_after fold_left].
  destruct e; try (intros H; destruct (IH f H) as [|(pre & post & -> & Hp)];
    [auto | right; exists pre; eexists (post ++ [_]);
            rewrite <- app_assoc; split; [reflexivity|];
            apply Forall_app; split; [exact Hp | repeat constructor; auto]]).
  intros ->. right. exists ev, []. split; [reflexivity | constructor].
Qed.

(** C3, as the code has it. In every run of the TCP control thread,
    [connected = True] comes right after the handshake was sent, which
    comes right after the connect succeeded: nothing is read from the
    peer in between.  Whatever the thread reads from the peer, the
    handshake response included, it reads after it has set [connected]
    to true, with no other write of [connected] in between.  And the
    flag is set: whenever the thread is at the head of its loop, finds
    the session running, and the connect and the send of the handshake
    succeed, what it does is the connect, the send and
    [connected = True], in this order and nothing else, [connected] is
    then true with nothing read yet, and the first [recv] of the
    response comes only after that. *)
Theorem C3_connected_set_once_handshake_sent `{J : TCPMessage.Json}
    (ws : list world) (self : PeerConnection.t) :
  let ev := (tcp_connect_and_sync ws self).2 in
  (forall pre post,
      ev = pre ++ EvSetConnected true :: post ->
      exists pre', pre = pre' ++ [connect_event self; handshake_event self])
  /\ (forall pre e post,
         ev = pre ++ e :: post -> is_read e ->
         exists pre1 pre2,
           pre = pre1 ++ EvSetConnected true :: pre2
           /\ Forall (fun e' => ~ is_set e') pre2)
  /\ (forall w1 w2 w3,
         tcp_at (tcp_connect_and_sync ws self).1 = TcpLoop ->
         w_running w1 = true -> w_raises w2 = false -> w_raises w3 = false ->
         let run := tcp_connect_and_sync (ws ++ [w1; w2; w3]) self in
         run.2 = ev ++ [connect_event self; handshake_event self;
                        EvSetConnected true]
         /\ connected (tcp_self run.1) = true
         /\ tcp_at run.1 = TcpReadLoop
         /\ tcp_buffer run.1 = []
         /\ forall w4 w5,
              w_running w4 = true -> w_raises w5 = false ->
              exists tail,
                (tcp_connect_and_sync (ws ++ [w1; w2; w3; w4; w5]) self).2
                = run.2 ++ EvRecv (w_chunk w5) :: tail).
Proof.
  intros ev. split; [|split]; cycle 2.
  - intros w1 w2 w3 Hat H1 H2 H3.
    pose proof (tcp_run_config ws (mkTcp TcpLoop [] self)) as Hc.
    fold (tcp_connect_and_sync ws self) in Hc. cbn [tcp_self] in Hc.
    apply config_events in Hc as [Hce Hhe].
    assert (Hrun : tcp_run [w1; w2; w3] (tcp_connect_and_sync ws self).1
                   = (mkTcp TcpReadLoop []
                        (set_connected true
                           (set_tcp_socket (Some SockStream)
                              (tcp_self (tcp_connect_and_sync ws self).1))),
                      [connect_event self; handshake_event self;
                       EvSetConnected true])).
    { rewrite tcp_run_cons, (step_loop_running w1 _ Hat H1). cbn [fst snd].
      rewrite tcp_run_cons, (step_connect_ok w2 (tcp_goto TcpConnect _) eq_refl H2).
      cbn [fst snd].
      rewrite tcp_run_cons,
        (step_send_handshake_ok w3 (mkTcp TcpSendHandshake _ _) eq_refl H3).
      cbn [fst snd tcp_run tcp_goto tcp_self app].
      rewrite <- Hce, <- Hhe. reflexivity. }
    assert (Happ : forall ws', tcp_connect_and_sync (ws ++ [w1; w2; w3] ++ ws') self
                   = ((tcp_run ws' (tcp_run [w1; w2; w3]
                                      (tcp_connect_and_sync ws self).1).1).1,
                      ev ++ [connect_event self; handshake_event self;
                             EvSetConnected true]
                         ++ (tcp_run ws' (tcp_run [w1; w2; w3]
                                      (tcp_connect_and_sync ws self).1).1).2)).
    { intros ws'. unfold tcp_connect_and_sync at 1.
      rewrite !tcp_run_app. fold (tcp_connect_and_sync ws self).
      rewrite Hrun. reflexivity. }
    cbn zeta. pose proof (Happ []) as H0. rewrite !app_nil_r in H0.
    rewrite H0, Hrun. cbn [fst snd tcp_run tcp_self tcp_at tcp_buffer].
    split; [reflexivity|]. split; [reflexivity|]. split; [reflexivity|].
    split; [reflexivity|].
    intros w4 w5 H4 H5.
    change (ws ++ [w1; w2; w3; w4; w5]) with (ws ++ [w1; w2; w3] ++ [w4; w5]).
    rewrite Happ, Hrun. cbn [fst snd].
    rewrite tcp_run_cons,
      (step_read_loop_running w4 (mkTcp TcpReadLoop _ _) eq_refl H4).
    cbn [fst snd app].
    rewrite tcp_run_cons.
    match goal with
    | |- context [tcp_step w5 ?s] =>
        destruct (step_recv_ok w5 s eq_refl H5) as [tail Hrecv]
    end.
    rewrite Hrecv. eexists. rewrite <- app_assoc. cbn [app]. reflexivity.
  - intros pre post Hev.
    pose proof (tcp_run_sets ws self (mkTcp TcpLoop [] self) [] eq_refl) as Hs.
    fold (tcp_connect_and_sync ws self) in Hs. fold ev in Hs. rewrite Hev in Hs.
    destruct (sets_ok_split _ _ _ _ (Hs ltac:(discriminate))) as [tl Htl].
    rewrite app_nil_r in Htl. exists (rev tl).
    rewrite <- (rev_involutive pre), Htl. cbn [rev]. rewrite <- !app_assoc.
    reflexivity.
  - intros pre e post Hev Hr.
    pose proof (tcp_run_reads ws (mkTcp TcpLoop [] self) false) as Hs.
    fold (tcp_connect_and_sync ws self) in Hs. fold ev in Hs. rewrite Hev in Hs.
    assert (Hf : flag_after false pre = true).
    { eapply reads_ok_split; [apply Hs | exact Hr].
      unfold reading. cbn. intros [?|?]; discriminate. }
    destruct (flag_after_set _ _ Hf) as [?|(pre1 & pre2 & -> & Hp)];
      [discriminate|]. eauto.
Qed.

(** A run in which the peer answers with its handshake. *)
Lemma C3_witness :
  let ws := [go []; go []; go []; go []; go handshake_line] in
  let ev := (tcp_connect_and_sync (J := tag_only_json) ws session_B).2 in
  ev = [EvConnect "10.0.0.5" 51000; EvSendall handshake_line;
        EvSetConnected true; EvRecv handshake_line;
        EvHandshakeConsumed (String.list_byte_of_string "handshake")]
  /\ (exists pre',
         [EvConnect "10.0.0.5" 51000; EvSendall handshake_line]
         = pre' ++ [connect_event session_B;
                    handshake_event (J := tag_only_json) session_B])
  /\ (exists pre1 pre2,
         [EvConnect "10.0.0.5" 51000; EvSendall handshake_line;
          EvSetConnected true; EvRecv handshake_line]
         = pre1 ++ EvSetConnected true :: pre2
         /\ Forall (fun e' => ~ is_set e') pre2)
  /\ (let run := tcp_connect_and_sync (J := tag_only_json)
                   ([] ++ [go []; go []; go []]) session_B in
      run.2 = [connect_event session_B;
               handshake_event (J := tag_only_json) session_B;
               EvSetConnected true]
      /\ connected (tcp_self run.1) = true
      /\ tcp_at run.1 = TcpReadLoop).
Proof.
  intros ws ev.
  assert (Hev : ev = [EvConnect "10.0.0.5" 51000; EvSendall handshake_line;
                      EvSetConnected true; EvRecv handshake_line;
                      EvHandshakeConsumed (String.list_byte_of_string "handshake")])
    by (vm_compute; reflexivity).
  split; [exact Hev|]. split; [|split].
  - apply (proj1 (C3_connected_set_once_handshake_sent (J := tag_only_json)
                    ws session_B)
             [EvConnect "10.0.0.5" 51000; EvSendall handshake_line]
             [EvRecv handshake_line;
              EvHandshakeConsumed (String.list_byte_of_string "handshake")]).
    exact Hev.
  - apply (proj1 (proj2 (C3_connected_set_once_handshake_sent
                           (J := tag_only_json) ws session_B))
             [EvConnect "10.0.0.5" 51000; EvSendall handshake_line;
              EvSetConnected true; EvRecv handshake_line]
             (EvHandshakeConsumed (String.list_byte_of_string "handshake"))
             []).
    + exact Hev.
    + exact I.
  - destruct (proj2 (proj2 (C3_connected_set_once_handshake_sent
                              (J := tag_only_json) [] session_B))
                (go []) (go []) (go []) eq_refl eq_refl eq_refl eq_refl)
      as (Hrun & Hconn & Hat & _).
    split; [exact Hrun|]. split; [exact Hconn | exact Hat].
Defined.

(** C3 as stated fails: once the handshake is sent [connected] is true,
    and nothing has been read from the peer yet; if the peer then stays
    silent until [recv] times out, no handshake response was ever
    consumed. *)
Lemma C3_counterexample :
  let '(st, ev) :=
    tcp_connect_and_sync (J := tag_only_json) [go []; go []; go []] session_B in
  let '(st', ev') :=
    tcp_connect_and_sync (J := tag_only_json)
      [go []; go []; go []; go []; fail] session_B in
  connected (tcp_self st) = true
  /\ ev = [EvConnect "10.0.0.5" 51000; EvSendall handshake_line;
           EvSetConnected true]
  /\ ev' = ev ++ [EvSetConnected false; EvClose SockStream; EvSleep 2]
  /\ Forall (fun e => ~ is_read e) ev
  /\ Forall (fun e => ~ is_read e) ev'.
Proof.
  vm_compute. repeat split; repeat constructor; auto.
Qed.

End TcpClaims.

(** * Further properties of the code *)

(** ** [struct] and the frame codec *)

Section FurtherCodec.
Import Struct UDPPacket.

Lemma byte_of_to_Z (b : byte) : byte_of_Z (byte_to_Z b) = b.
Proof.
  pose proof (byte_to_Z_range b) as Hb.
  unfold byte_of_Z. rewrite Z.mod_small by exact Hb.
  unfold byte_to_Z. rewrite N2Z.id, Byte.of_to_N. reflexivity.
Qed.

Lemma in_range_iff (c : code) (v : Z) :
  in_range c v = true <->
  match c with
  | fmt_H => 0 <= v <= 65535
  | fmt_B => 0 <= v <= 255
  | fmt_b => -128 <= v <= 127
  end.
Proof. destruct c; cbn; rewrite andb_true_iff, !Z.leb_le; reflexivity. Qed.

(** [struct.pack] raises nothing but [struct.error], and raises it
    exactly when a value does not fit or the arity is wrong. *)
Lemma pack_ok_iff (fmt : list code) : forall vals,
  (exists bs, pack fmt vals = Ok bs) <-> all_in_range fmt vals.
Proof.
  unfold all_in_range.
  induction fmt as [|c fmt IH]; intros [|v vals]; cbn [pack].
  - split; [constructor | eauto].
  - split; [intros [? [=]] | inversion 1].
  - split; [intros [? [=]] | inversion 1].
  - destruct (in_range c v) eqn:Hr.
    + rewrite Forall2_cons, <- IH. split.
      * intros [bs Hbs]. split; [exact Hr|].
        destruct (pack fmt vals); [eauto | discriminate].
      * intros [_ [rest ->]]. cbn. eauto.
    + split; [intros [? [=]]|]. rewrite Forall2_cons. intros [? _]. congruence.
Qed.

Lemma pack_raises (fmt : list code) : forall vals e,
  pack fmt vals = Raise e -> e = StructError.
Proof.
  induction fmt as [|c fmt IH]; intros [|v vals] e; cbn [pack];
    try (intros [= <-]; reflexivity); try discriminate.
  destruct (in_range c v); [|intros [= <-]; reflexivity].
  destruct (pack fmt vals) eqn:E; cbn [rbind]; [discriminate|].
  intros [= <-]. eapply IH, E.
Qed.

Lemma be_uint_2 (hi lo : byte) :
  be_uint [hi; lo] = byte_to_Z hi * 256 + byte_to_Z lo.
Proof. cbn. lia. Qed.

Lemma be_uint_1 (b : byte) : be_uint [b] = byte_to_Z b.
Proof. cbn. lia. Qed.

Lemma byte_of_Z_eqm (z z' : Z) :
  z mod 256 = z' mod 256 -> byte_of_Z z = byte_of_Z z'.
Proof. unfold byte_of_Z. intros ->. reflexivity. Qed.

(** Decoding then encoding a field gives the bytes back. *)
Lemma encode_decode (c : code) (bs : list byte) :
  length bs = code_size c -> encode c (decode c bs) = bs.
Proof.
  destruct c; cbn [code_size].
  - destruct bs as [|hi [|lo [|? ?]]]; try discriminate. intros _.
    cbn [decode encode]. rewrite be_uint_2.
    pose proof (byte_to_Z_range hi). pose proof (byte_to_Z_range lo).
    rewrite Z.shiftr_div_pow2 by lia. change (2 ^ 8) with 256.
    replace ((byte_to_Z hi * 256 + byte_to_Z lo) / 256) with (byte_to_Z hi)
      by (apply Z.div_unique with (r := byte_to_Z lo); lia).
    rewrite byte_of_to_Z. f_equal. f_equal.
    rewrite (byte_of_Z_eqm _ (byte_to_Z lo)); [apply byte_of_to_Z|].
    rewrite Z.add_comm, Z.mod_add by lia. reflexivity.
  - destruct bs as [|b [|? ?]]; try discriminate. intros _.
    cbn [decode encode]. rewrite be_uint_1, byte_of_to_Z. reflexivity.
  - destruct bs as [|b [|? ?]]; try discriminate. intros _.
    cbn [decode encode]. rewrite be_uint_1. cbn zeta.
    pose proof (byte_to_Z_range b). f_equal.
    destruct (Z.ltb_spec (byte_to_Z b) 128); [apply byte_of_to_Z|].
    rewrite (byte_of_Z_eqm _ (byte_to_Z b)); [apply byte_of_to_Z|].
    replace (byte_to_Z b - 256) with (byte_to_Z b + (-1) * 256) by lia.
    rewrite Z.mod_add by lia. reflexivity.
Qed.

Lemma decode_in_range (c : code) (bs : list byte) :
  length bs = code_size c -> in_range c (decode c bs) = true.
Proof.
  rewrite in_range_iff.
  destruct c; cbn [code_size].
  - destruct bs as [|hi [|lo [|? ?]]]; try discriminate. intros _.
    cbn [decode]. rewrite be_uint_2.
    pose proof (byte_to_Z_range hi). pose proof (byte_to_Z_range lo). lia.
  - destruct bs as [|b [|? ?]]; try discriminate. intros _.
    cbn [decode]. rewrite be_uint_1. pose proof (byte_to_Z_range b). lia.
  - destruct bs as [|b [|? ?]]; try discriminate. intros _.
    cbn [decode]. rewrite be_uint_1. cbn zeta.
    pose proof (byte_to_Z_range b).
    destruct (Z.ltb_spec (byte_to_Z b) 128); lia.
Qed.

(** What [struct.unpack] read, [struct.pack] writes back. *)
Lemma pack_decode_all (fmt : list code) : forall data,
  length data = calcsize fmt -> pack fmt (decode_all fmt data) = Ok data.
Proof.
  induction fmt as [|c fmt IH]; intros data Hlen; cbn [calcsize] in Hlen.
  - destruct data; [reflexivity | discriminate].
  - cbn [decode_all pack].
    assert (Ht : length (take (code_size c) data) = code_size c)
      by (rewrite length_take; lia).
    rewrite (decode_in_range c _ Ht), (encode_decode c _ Ht).
    rewrite IH by (rewrite length_drop; lia). cbn [rbind].
    rewrite take_drop. reflexivity.
Qed.

Lemma header_in_range (sequence ty : Z) :
  all_in_range HEADER_FORMAT [sequence; ty]
  <-> 0 <= sequence <= 65535 /\ 0 <= ty <= 255.
Proof.
  unfold all_in_range, HEADER_FORMAT.
  rewrite !Forall2_cons, !in_range_iff. split.
  - intros (? & ? & _). auto.
  - intros (? & ?). split; [assumption|]. split; [assumption|]. constructor.
Qed.

Lemma mouse_in_range (x y wheel_x wheel_y buttons : Z) :
  all_in_range MOUSE_FORMAT [x; y; wheel_x; wheel_y; buttons]
  <-> args_in_range x y wheel_x wheel_y buttons.
Proof.
  unfold all_in_range, MOUSE_FORMAT, args_in_range.
  rewrite !Forall2_cons, !in_range_iff. split.
  - intros (? & ? & ? & ? & ? & _). auto.
  - intros (? & ? & ? & ? & ?).
    repeat (split; [assumption|]). constructor.
Qed.

Lemma pack_heartbeat_cases (sequence : Z) :
  (0 <= sequence <= 65535
   /\ exists frame, pack_heartbeat sequence = Ok frame /\ length frame = 3%nat)
  \/ (~ 0 <= sequence <= 65535 /\ pack_heartbeat sequence = Raise StructError).
Proof.
  unfold pack_heartbeat.
  destruct (pack HEADER_FORMAT [sequence; TYPE_HEARTBEAT]) as [frame|e] eqn:E.
  - left. split.
    + apply (header_in_range sequence TYPE_HEARTBEAT), pack_ok_iff. eauto.
    + exists frame. split; [reflexivity | exact (pack_length _ _ _ E)].
  - right. rewrite (pack_raises _ _ _ E) in *. split; [|reflexivity].
    intros Hs.
    destruct (proj2 (pack_ok_iff HEADER_FORMAT [sequence; TYPE_HEARTBEAT]))
      as [bs Hbs]; [|congruence].
    apply header_in_range. split; [exact Hs | unfold TYPE_HEARTBEAT; lia].
Qed.

Lemma pack_mouse_cases (sequence x y wheel_x wheel_y buttons : Z) :
  ((0 <= sequence <= 65535 /\ args_in_range x y wheel_x wheel_y buttons)
   /\ exists frame,
        pack_mouse_absolute sequence x y wheel_x wheel_y buttons = Ok frame
        /\ length frame = 10%nat)
  \/ (~ (0 <= sequence <= 65535 /\ args_in_range x y wheel_x wheel_y buttons)
      /\ pack_mouse_absolute sequence x y wheel_x wheel_y buttons
         = Raise StructError).
Proof.
  unfold pack_mouse_absolute.
  destruct (pack HEADER_FORMAT [sequence; TYPE_MOUSE_ABSOLUTE])
    as [header|e] eqn:Eh; cbn [rbind].
  - assert (Hs : 0 <= sequence <= 65535)
      by (apply (header_in_range sequence TYPE_MOUSE_ABSOLUTE), pack_ok_iff; eauto).
    destruct (pack MOUSE_FORMAT [x; y; wheel_x; wheel_y; buttons])
      as [payload|e] eqn:Ep; cbn [rbind].
    + left. split.
      * split; [exact Hs|]. apply mouse_in_range, pack_ok_iff. eauto.
      * eexists. split; [reflexivity|].
        rewrite length_app, (pack_length _ _ _ Eh), (pack_length _ _ _ Ep).
        reflexivity.
    + right. rewrite (pack_raises _ _ _ Ep) in *. split; [|reflexivity].
      intros [_ Ha]. apply mouse_in_range, pack_ok_iff in Ha.
      destruct Ha as [bs Hbs]. congruence.
  - right. rewrite (pack_raises _ _ _ Eh) in *. split; [|reflexivity].
    intros [Hs _].
    destruct (proj2 (pack_ok_iff HEADER_FORMAT [sequence; TYPE_MOUSE_ABSOLUTE]))
      as [bs Hbs]; [|congruence].
    apply header_in_range. split; [exact Hs | unfold TYPE_MOUSE_ABSOLUTE; lia].
Qed.

(** X1. Packing either succeeds, with a frame of 3 bytes for a heartbeat and
    of 10 bytes for a mouse frame, or raises [struct.error]; it succeeds
    exactly when every field fits its format character. *)
Theorem pack_succeeds_exactly_in_range
    (sequence x y wheel_x wheel_y buttons : Z) :
  ((0 <= sequence <= 65535
    /\ exists frame, pack_heartbeat sequence = Ok frame /\ length frame = 3%nat)
   \/ (~ 0 <= sequence <= 65535 /\ pack_heartbeat sequence = Raise StructError))
  /\
  (((0 <= sequence <= 65535 /\ args_in_range x y wheel_x wheel_y buttons)
    /\ exists frame,
         pack_mouse_absolute sequence x y wheel_x wheel_y buttons = Ok frame
         /\ length frame = 10%nat)
   \/ (~ (0 <= sequence <= 65535 /\ args_in_range x y wheel_x wheel_y buttons)
       /\ pack_mouse_absolute sequence x y wheel_x wheel_y buttons
          = Raise StructError)).
Proof.
  split; [apply pack_heartbeat_cases | apply pack_mouse_cases].
Qed.

Lemma repack_in_range (pkt : packet) (bs : list byte) :
  repack pkt = Ok bs -> packet_in_range pkt.
Proof.
  destruct pkt as [sequence | sequence x y wheel_x wheel_y buttons];
    cbn [repack packet_in_range]; intros Hp.
  - destruct (pack_heartbeat_cases sequence) as [[Hs _]|[_ Hr]];
      [exact Hs | congruence].
  - destruct (pack_mouse_cases sequence x y wheel_x wheel_y buttons)
      as [[Hs _]|[_ Hr]]; [exact Hs | congruence].
Qed.

(** X2. Whatever [unpack] decodes can be packed again, and packing it gives
    back the bytes [unpack] read: the first 3 of a heartbeat, the first
    10 of a mouse frame.  So the fields of a decoded frame always fit the
    wire format. *)
Theorem unpack_then_pack (data : list byte) (pkt : packet) :
  unpack data = Ok (Some pkt) ->
  repack pkt = Ok (take (frame_length pkt) data) /\ packet_in_range pkt.
Proof.
  intros Hu.
  assert (Hr : repack pkt = Ok (take (frame_length pkt) data));
    [|split; [exact Hr | exact (repack_in_range _ _ Hr)]].
  destruct (Nat.lt_ge_cases (length data) 3) as [Hlt|Hge].
  { rewrite unpack_short in Hu by exact Hlt. discriminate. }
  destruct (header_inv data Hge) as (b0 & b1 & b2 & rest & ->).
  rewrite unpack_header in Hu.
  pose proof (pack_decode_all HEADER_FORMAT [b0; b1; b2] eq_refl) as Hh.
  cbn [decode_all HEADER_FORMAT code_size take drop firstn skipn decode] in Hh.
  rewrite be_uint_1 in Hh.
  destruct (Z.eqb_spec (byte_to_Z b2) 0) as [H0|H0].
  { injection Hu as <-. cbn [repack frame_length]. unfold pack_heartbeat.
    rewrite H0 in Hh. exact Hh. }
  destruct (Z.eqb_spec (byte_to_Z b2) 1) as [H1|H1]; [|discriminate].
  destruct (Nat.ltb_spec (length rest) 7) as [|Hl]; [discriminate|].
  injection Hu as <-.
  assert (Ht : length (take 7 rest) = calcsize MOUSE_FORMAT)
    by (change (calcsize MOUSE_FORMAT) with 7%nat; rewrite length_take; lia).
  pose proof (pack_decode_all MOUSE_FORMAT (take 7 rest) Ht) as Hm.
  unfold mouse_of. cbn [decode_all MOUSE_FORMAT] in Hm |- *.
  cbn [repack frame_length]. unfold pack_mouse_absolute.
  rewrite H1 in Hh. unfold TYPE_MOUSE_ABSOLUTE.
  rewrite Hh. cbn [rbind]. rewrite Hm. reflexivity.
Qed.

Lemma unpack_then_pack_witness :
  let data := [x01; x02; x01; x00; x64; x00; xc8; x01; xff; x05; xaa; xbb] in
  let pkt := MouseAbsolute 258 100 200 1 (-1) 5 in
  repack pkt = Ok (take (frame_length pkt) data) /\ packet_in_range pkt.
Proof.
  intros data pkt. apply (unpack_then_pack data pkt). reflexivity.
Defined.

End FurtherCodec.

(** ** The UDP transmit thread *)

Section FurtherTransmit.
Import PeerConnection.

Implicit Types (self : PeerConnection.t) (w : world) (ws : list world).

(** The two ways a pass of the loop can go. *)
Lemma udp_transmit_iter_cases w self :
  udp_transmit_iter w self = (self, [EvSleep (1 # 10)])
  \/ exists packet self',
       UDPPacket.pack_mouse_absolute (tx_sequence self) (mouse_x self)
         (mouse_y self) (mouse_wheel_x self) (mouse_wheel_y self)
         (mouse_buttons self) = Ok packet
       /\ w_raises w = false
       /\ udp_transmit_iter w self
          = (self', [EvSendTo packet (peer_address self) (udp_port self);
                     EvSleep (1 # 1000)])
       /\ tx_sequence self' = (tx_sequence self + 1) mod 65536
       /\ last_tx_time self' = w_now w
       /\ tx_inputs self' = tx_inputs self.
Proof.
  unfold udp_transmit_iter.
  destruct (UDPPacket.pack_mouse_absolute _ _ _ _ _ _) as [packet|]; [|auto].
  destruct (w_raises w); [auto|]. right.
  eexists _, _. repeat split.
Qed.

Lemma frames_sent_cons_sleep (q : Q) (ev : list event) :
  frames_sent (EvSleep q :: ev) = frames_sent ev.
Proof. reflexivity. Qed.

(** X3. The sequence counter counts the frames sent, modulo 65536, and the
    k-th frame sent carries the k-th sequence number after the first:
    65535 is followed by 0, and a failed send uses up no number. *)
Theorem transmit_frames_numbered ws : forall self,
  0 <= tx_sequence self <= 65535 ->
  tx_sequence (udp_transmit_loop ws self).1
  = (tx_sequence self
     + Z.of_nat (length (frames_sent (udp_transmit_loop ws self).2))) mod 65536
  /\ forall (k : nat) frame,
       frames_sent (udp_transmit_loop ws self).2 !! k = Some frame ->
       UDPPacket.unpack frame
       = Ok (Some (UDPPacket.MouseAbsolute
                     ((tx_sequence self + Z.of_nat k) mod 65536)
                     (mouse_x self) (mouse_y self)
                     (mouse_wheel_x self) (mouse_wheel_y self)
                     (mouse_buttons self))).
Proof.
  induction ws as [|w ws IH]; intros self Hs; cbn [udp_transmit_loop].
  - cbn. rewrite Z.add_0_r, Z.mod_small by lia. split; [reflexivity|].
    intros k frame Hk. destruct k; discriminate.
  - destruct (w_running w).
    2:{ cbn. rewrite Z.add_0_r, Z.mod_small by lia. split; [reflexivity|].
        intros k frame Hk. destruct k; discriminate. }
    destruct (udp_transmit_iter_cases w self)
      as [->|(packet & self1 & Hp & _ & -> & Hs1 & _ & Hin)].
    + destruct (IH self Hs) as [IH1 IH2].
      destruct (udp_transmit_loop ws self) as [self2 ev2].
      cbn [fst snd app] in *. rewrite frames_sent_cons_sleep. auto.
    + assert (Hr1 : 0 <= tx_sequence self1 <= 65535).
      { rewrite Hs1. pose proof (Z.mod_pos_bound (tx_sequence self + 1) 65536).
        lia. }
      destruct (IH self1 Hr1) as [IH1 IH2].
      destruct (udp_transmit_loop ws self1) as [self2 ev2].
      cbn [fst snd app] in *.
      change (frames_sent (EvSendTo packet (peer_address self) (udp_port self)
                             :: EvSleep (1 # 1000) :: ev2))
        with (packet :: frames_sent ev2).
      unfold tx_inputs in Hin. injection Hin as Hx Hy Hwx Hwy Hb _ _.
      split.
      * rewrite IH1, Hs1. cbn [length].
        rewrite Zplus_mod_idemp_l. f_equal. lia.
      * intros [|k] frame Hk.
        -- injection Hk as <-. rewrite Z.add_0_r, Z.mod_small by lia.
           rewrite <- (app_nil_r packet). apply unpack_mouse_frame, Hp.
        -- rewrite (IH2 k frame Hk), Hs1, Hx, Hy, Hwx, Hwy, Hb.
           rewrite Zplus_mod_idemp_l. do 4 f_equal. lia.
Qed.

(** A session at sequence number 65535: the next two frames carry 65535
    and 0. *)
Lemma transmit_frames_numbered_witness :
  let self := set_tx_sequence 65535 (update_mouse_state 100 200 1 (-1) 1 session_B) in
  let ws := [go []; go []] in
  tx_sequence (udp_transmit_loop ws self).1
  = (tx_sequence self
     + Z.of_nat (length (frames_sent (udp_transmit_loop ws self).2))) mod 65536
  /\ forall (k : nat) frame,
       frames_sent (udp_transmit_loop ws self).2 !! k = Some frame ->
       UDPPacket.unpack frame
       = Ok (Some (UDPPacket.MouseAbsolute
                     ((tx_sequence self + Z.of_nat k) mod 65536)
                     (mouse_x self) (mouse_y self)
                     (mouse_wheel_x self) (mouse_wheel_y self)
                     (mouse_buttons self))).
Proof.
  intros self ws. apply (transmit_frames_numbered ws self). cbn. lia.
Defined.

(** X4. A sequence number or a snapshot that does not fit the wire format
    silences the thread: it sends nothing, changes nothing and only
    sleeps 0.1s per pass, for as long as the snapshot stays as it is. *)
Theorem transmit_stalls_out_of_range ws : forall self,
  ~ (0 <= tx_sequence self <= 65535 /\ snapshot_in_range self) ->
  (udp_transmit_loop ws self).1 = self
  /\ frames_sent (udp_transmit_loop ws self).2 = []
  /\ Forall (fun e => e = EvSleep (1 # 10)) (udp_transmit_loop ws self).2.
Proof.
  intros self Hbad.
  assert (Hi : forall w, udp_transmit_iter w self = (self, [EvSleep (1 # 10)])).
  { intros w. unfold udp_transmit_iter.
    destruct (pack_mouse_cases (tx_sequence self) (mouse_x self) (mouse_y self)
                (mouse_wheel_x self) (mouse_wheel_y self) (mouse_buttons self))
      as [[Hok _]|[_ ->]]; [contradiction | reflexivity]. }
  induction ws as [|w ws IH]; cbn [udp_transmit_loop].
  - repeat split. constructor.
  - destruct (w_running w); [|repeat split; constructor].
    rewrite Hi. destruct IH as (IH1 & IH2 & IH3).
    destruct (udp_transmit_loop ws self) as [self2 ev2]. cbn [fst snd app] in *.
    repeat split; [exact IH1 | exact IH2 | constructor; [reflexivity | exact IH3]].
Qed.

Lemma transmit_stalls_out_of_range_witness :
  let self := update_mouse_state 70000 0 0 0 0 session_B in
  let ws := [go []; go []; go []] in
  (udp_transmit_loop ws self).1 = self
  /\ frames_sent (udp_transmit_loop ws self).2 = []
  /\ Forall (fun e => e = EvSleep (1 # 10)) (udp_transmit_loop ws self).2.
Proof.
  intros self ws. apply (transmit_stalls_out_of_range ws self).
  unfold snapshot_in_range, args_in_range. cbn. lia.
Defined.

Lemma udp_transmit_loop_inputs ws : forall self,
  tx_inputs (udp_transmit_loop ws self).1 = tx_inputs self.
Proof.
  induction ws as [|w ws IH]; intros self; cbn [udp_transmit_loop];
    [reflexivity|].
  destruct (w_running w); [|reflexivity].
  destruct (udp_transmit_iter_cases w self)
    as [->|(packet & self1 & _ & _ & -> & _ & _ & Hin)].
  - specialize (IH self). destruct (udp_transmit_loop ws self). exact IH.
  - specialize (IH self1). destruct (udp_transmit_loop ws self1).
    cbn [fst] in *. congruence.
Qed.

(** X5. Every datagram the thread sends is a 10-byte frame and goes to the
    peer's address and remote UDP port. *)
Theorem transmit_destination ws : forall self,
  Forall (fun e =>
            match e with
            | EvSendTo packet address port =>
                length packet = 10%nat
                /\ address = peer_address self /\ port = udp_port self
            | EvSleep _ => True
            | _ => False
            end)
    (udp_transmit_loop ws self).2.
Proof.
  induction ws as [|w ws IH]; intros self; cbn [udp_transmit_loop];
    [constructor|].
  destruct (w_running w); [|constructor].
  destruct (udp_transmit_iter_cases w self)
    as [->|(packet & self1 & Hp & _ & -> & _ & _ & Hin)].
  - specialize (IH self). destruct (udp_transmit_loop ws self).
    cbn [snd app] in *. constructor; [exact I | exact IH].
  - specialize (IH self1). destruct (udp_transmit_loop ws self1).
    cbn [snd app] in *.
    unfold tx_inputs in Hin. injection Hin as _ _ _ _ _ Ha Hu.
    rewrite Ha, Hu in IH.
    constructor; [|constructor; [exact I | exact IH]].
    split; [|split; reflexivity].
    destruct (pack_mouse_cases (tx_sequence self) (mouse_x self) (mouse_y self)
                (mouse_wheel_x self) (mouse_wheel_y self) (mouse_buttons self))
      as [[_ (frame & Hf & Hl)]|[_ Hr]]; congruence.
Qed.

(** X6. With a snapshot that fits and a socket that takes every datagram,
    each pass of the loop sends one frame. *)
Theorem transmit_one_frame_per_pass ws : forall self,
  0 <= tx_sequence self <= 65535 -> snapshot_in_range self ->
  Forall (fun w => w_running w = true /\ w_raises w = false) ws ->
  length (frames_sent (udp_transmit_loop ws self).2) = length ws.
Proof.
  induction ws as [|w ws IH]; intros self Hs Hr Hw; [reflexivity|].
  apply Forall_cons in Hw as [[Hrun Hok] Hw].
  cbn [udp_transmit_loop]. rewrite Hrun.
  destruct (udp_transmit_iter_cases w self)
    as [Hstall|(packet & self1 & Hp & _ & -> & Hs1 & _ & Hin)].
  - exfalso. unfold udp_transmit_iter in Hstall.
    destruct (pack_mouse_cases (tx_sequence self) (mouse_x self) (mouse_y self)
                (mouse_wheel_x self) (mouse_wheel_y self) (mouse_buttons self))
      as [[_ (frame & Hf & _)]|[Hbad _]]; [|tauto].
    rewrite Hf, Hok in Hstall. discriminate.
  - assert (Hr1 : 0 <= tx_sequence self1 <= 65535).
    { rewrite Hs1. pose proof (Z.mod_pos_bound (tx_sequence self + 1) 65536).
      lia. }
    assert (Hsn : snapshot_in_range self1).
    { unfold tx_inputs in Hin. injection Hin as Hx Hy Hwx Hwy Hb _ _.
      unfold snapshot_in_range. rewrite Hx, Hy, Hwx, Hwy, Hb. exact Hr. }
    specialize (IH self1 Hr1 Hsn Hw).
    destruct (udp_transmit_loop ws self1) as [self2 ev2].
    cbn [snd app] in *. cbn [frames_sent omap]. cbn. rewrite <- IH.
    reflexivity.
Qed.

Lemma transmit_one_frame_per_pass_witness :
  let self := update_mouse_state 100 200 1 (-1) 1 session_B in
  let ws := [go []; go []; go []] in
  length (frames_sent (udp_transmit_loop ws self).2) = length ws.
Proof.
  intros self ws. apply (transmit_one_frame_per_pass ws self).
  - cbn. lia.
  - unfold snapshot_in_range, args_in_range. cbn. lia.
  - repeat constructor.
Defined.

End FurtherTransmit.

(** ** The UDP receive thread *)

Section FurtherReceive.
Import PeerConnection.

Implicit Types (self : PeerConnection.t) (os : list (bool * recv_obs)).

Lemma udp_receive_iter_inputs (o : recv_obs) self :
  rx_inputs (udp_receive_iter o self).1 = rx_inputs self.
Proof.
  destruct o as [| |data now]; cbn [udp_receive_iter]; try reflexivity.
  destruct (UDPPacket.unpack data) as [[[|]|]|]; try reflexivity.
  cbn [on_mouse_data record_rx]. destruct (on_mouse_data self); reflexivity.
Qed.

Lemma udp_receive_iter_counters (o : recv_obs) self :
  match o with
  | RecvDatagram data now =>
      rx_packets (udp_receive_iter o self).1 = rx_packets self + 1
      /\ rx_bytes (udp_receive_iter o self).1
         = rx_bytes self + Z.of_nat (length data)
      /\ last_rx_time (udp_receive_iter o self).1 = now
  | _ => (udp_receive_iter o self).1 = self
  end.
Proof.
  destruct o as [| |data now]; cbn [udp_receive_iter]; try reflexivity.
  destruct (UDPPacket.unpack data) as [[[|]|]|]; try (repeat split).
  all: cbn [on_mouse_data record_rx]; destruct (on_mouse_data self);
    repeat split.
Qed.

(** X7. The receive counters count every datagram taken in, decodable or
    not: [rx_packets] grows by their number, [rx_bytes] by their total
    length, and [last_rx_time] is the time of the last one; timeouts and
    socket errors change nothing. *)
Theorem receive_counts_every_datagram os : forall self,
  rx_packets (udp_receive_loop os self).1
  = rx_packets self + Z.of_nat (length (received os))
  /\ rx_bytes (udp_receive_loop os self).1
     = rx_bytes self + total_bytes (received os)
  /\ last_rx_time (udp_receive_loop os self).1
     = match last (received os) with
       | Some d => d.2
       | None => last_rx_time self
       end.
Proof.
  induction os as [|[run o] os IH]; intros self; cbn [udp_receive_loop received].
  - cbn. repeat split; lia.
  - destruct run; [|cbn; repeat split; lia].
    pose proof (udp_receive_iter_counters o self) as Hc.
    destruct (udp_receive_iter o self) as [self1 ev1]. cbn [fst] in Hc.
    destruct (IH self1) as (IH1 & IH2 & IH3).
    destruct (udp_receive_loop os self1) as [self2 ev2]. cbn [fst] in *.
    destruct o as [| |data now].
    + subst self1. auto.
    + subst self1. auto.
    + destruct Hc as (Hp & Hb & Ht). rewrite IH1, IH2, IH3, Hp, Hb.
      cbn [length total_bytes foldr fst]. fold (total_bytes (received os)).
      split; [lia | split; [lia|]].
      rewrite last_cons. destruct (last (received os)); [reflexivity|].
      exact Ht.
Qed.

(** X8. What a datagram makes the thread do: it calls the mouse-data
    callback, once, exactly when there is one and the datagram decodes as
    a mouse frame (10 bytes or more, type byte 1); it does nothing for a
    heartbeat or for bytes that do not decode, and no datagram sends it
    to its error handler. *)
Theorem receive_calls_back_for_mouse_frames (data : list byte) (now : Q) self :
  ((exists cb pkt,
       on_mouse_data self = Some cb
       /\ UDPPacket.unpack data = Ok (Some pkt)
       /\ (10 <= length data)%nat /\ type_byte data = Some 1
       /\ (udp_receive_iter (RecvDatagram data now) self).2
          = [EvMouseData cb (peer_name self) pkt])
   \/ ((on_mouse_data self = None
        \/ (length data < 10)%nat \/ type_byte data <> Some 1)
       /\ (udp_receive_iter (RecvDatagram data now) self).2 = [])).
Proof.
  cbn [udp_receive_iter].
  change (on_mouse_data (record_rx (Z.of_nat (length data)) now self))
    with (on_mouse_data self).
  change (peer_name (record_rx (Z.of_nat (length data)) now self))
    with (peer_name self).
  destruct (Nat.lt_ge_cases (length data) 3) as [Hlt|Hge].
  { rewrite unpack_short by exact Hlt. right. split; [right; left; lia|].
    reflexivity. }
  destruct (header_inv data Hge) as (b0 & b1 & b2 & rest & ->).
  rewrite unpack_header, type_byte_header. cbn [length].
  destruct (Z.eqb_spec (Struct.byte_to_Z b2) 0) as [H0|H0].
  { right. split; [right; right; congruence | reflexivity]. }
  destruct (Z.eqb_spec (Struct.byte_to_Z b2) 1) as [H1|H1].
  2:{ right. split; [right; right; congruence | reflexivity]. }
  destruct (Nat.ltb_spec (length rest) 7) as [Hl|Hl].
  { right. split; [right; left; lia | reflexivity]. }
  destruct (mouse_of_is_mouse (Struct.be_uint [b0; b1]) (take 7 rest))
    as (x & y & wx & wy & b & ->).
  destruct (on_mouse_data self) as [cb|].
  - left. exists cb. eexists. repeat split; [lia | congruence].
  - right. split; [left; reflexivity | reflexivity].
Qed.

(** X9. From one session to another: the frame a pass of the transmit
    thread sends, when it reaches a session that has a mouse-data
    callback, makes that session call it with its own peer name and the
    sender's sequence number and snapshot. *)
Theorem transmit_receive_roundtrip (w : world) (sender receiver : PeerConnection.t)
    (cb : callback) (now : Q) :
  0 <= tx_sequence sender <= 65535 -> snapshot_in_range sender ->
  w_raises w = false ->
  on_mouse_data receiver = Some cb ->
  exists frame,
    frames_sent (udp_transmit_iter w sender).2 = [frame]
    /\ (udp_receive_iter (RecvDatagram frame now) receiver).2
       = [EvMouseData cb (peer_name receiver)
            (UDPPacket.MouseAbsolute (tx_sequence sender)
               (mouse_x sender) (mouse_y sender)
               (mouse_wheel_x sender) (mouse_wheel_y sender)
               (mouse_buttons sender))].
Proof.
  intros Hs Hr Hok Hcb.
  destruct (pack_mouse_cases (tx_sequence sender) (mouse_x sender)
              (mouse_y sender) (mouse_wheel_x sender) (mouse_wheel_y sender)
              (mouse_buttons sender))
    as [[_ (frame & Hf & _)]|[Hbad _]]; [|tauto].
  exists frame. unfold udp_transmit_iter. rewrite Hf, Hok. split; [reflexivity|].
  cbn [udp_receive_iter].
  pose proof (unpack_mouse_frame _ _ _ _ _ _ _ [] Hf) as Hu.
  rewrite app_nil_r in Hu. rewrite Hu.
  change (on_mouse_data (record_rx (Z.of_nat (length frame)) now receiver))
    with (on_mouse_data receiver).
  rewrite Hcb. reflexivity.
Qed.

Lemma transmit_receive_roundtrip_witness :
  let sender := update_mouse_state 100 200 1 (-1) 1 session_B in
  exists frame,
    frames_sent (udp_transmit_iter (go []) sender).2 = [frame]
    /\ (udp_receive_iter (RecvDatagram frame 5) session_B).2
       = [EvMouseData ManagerHandleMouseData (peer_name session_B)
            (UDPPacket.MouseAbsolute (tx_sequence sender)
               (mouse_x sender) (mouse_y sender)
               (mouse_wheel_x sender) (mouse_wheel_y sender)
               (mouse_buttons sender))].
Proof.
  intros sender.
  apply (transmit_receive_roundtrip (go []) sender session_B
           ManagerHandleMouseData 5).
  - cbn. lia.
  - unfold snapshot_in_range, args_in_range. cbn. lia.
  - reflexivity.
  - reflexivity.
Defined.

End FurtherReceive.

(** ** The liveness thread, further *)

Section FurtherLiveness.
Import PeerConnection.
Context `{F : FloatArith}.

Implicit Types (self : PeerConnection.t) (p : poll) (polls : list poll).

(** A difference of at most 2 is at most 2.0 on floats as well. *)
Lemma fsub_le_2 (a b : Q) : (a - b <= 2)%Q -> (fsub a b <= 2)%Q.
Proof.
  intros H. unfold fsub.
  apply Qle_trans with (fround 2); [apply fround_mono, H|].
  rewrite fround_2. apply Qle_refl.
Qed.

Lemma timed_out_within_window p : within_window p -> timed_out p = false.
Proof.
  intros [Ht Hd]. unfold timed_out, time_since_rx. rewrite Ht.
  destruct (Qltb 0 (p_rx_guard p)); [|reflexivity].
  unfold Qltb. apply fsub_le_2, Qle_bool_iff in Hd. rewrite Hd. reflexivity.
Qed.

(** X10. As long as the silence stays within 2.0 seconds, exactly 2.0
    included, the callback is not called, and the thread returns only
    because the session was stopped. *)
Theorem liveness_quiet_within_window self polls :
  Forall within_window polls ->
  disconnects (check_liveness self polls).1 = 0%nat
  /\ ((check_liveness self polls).2 = true
      <-> Exists (fun p => p_running p = false) polls).
Proof.
  induction 1 as [|p polls Hp _ IH]; cbn [check_liveness].
  - split; [reflexivity|]. split; [discriminate | inversion 1].
  - destruct (p_running p) eqn:Hrun.
    + rewrite (timed_out_within_window p Hp).
      destruct (check_liveness self polls) as [ev r]. cbn [fst snd] in *.
      destruct IH as [IH1 IH2]. split; [exact IH1|].
      rewrite IH2, Exists_cons. split; [auto|].
      intros [?|?]; [congruence | assumption].
    + cbn. split; [reflexivity|]. split; [|reflexivity].
      intros _. apply Exists_cons. left. exact Hrun.
Qed.

(** X11. A session that is stopped while the thread is still watching ends
    the thread without a call of the callback, however long the silence
    has been. *)
Theorem liveness_stops_with_session self pre p post ev :
  check_liveness self pre = (ev, false) ->
  p_running p = false ->
  check_liveness self (pre ++ p :: post) = (ev, true)
  /\ disconnects ev = 0%nat.
Proof.
  intros Hpre Hrun.
  rewrite (check_liveness_app _ _ _ _ Hpre). cbn [check_liveness].
  rewrite Hrun. cbn [fst snd]. rewrite app_nil_r.
  split; [reflexivity | exact (check_liveness_monitoring _ _ _ Hpre)].
Qed.

End FurtherLiveness.

Section FurtherLivenessWitnesses.
Import PeerConnection.

Lemma liveness_quiet_within_window_witness :
  let polls := [heard 11 10; heard 12 10; mkPoll false 12 10 10 10] in
  disconnects (check_liveness (F := no_rounding) session_B polls).1 = 0%nat
  /\ ((check_liveness (F := no_rounding) session_B polls).2 = true
      <-> Exists (fun p => p_running p = false) polls).
Proof.
  intros polls.
  apply (liveness_quiet_within_window (F := no_rounding) session_B polls).
  repeat (apply Forall_cons_2; [split; [reflexivity | cbn; discriminate]|]).
  apply Forall_nil_2.
Defined.

Lemma liveness_stops_with_session_witness :
  check_liveness (F := no_rounding) session_B
    ([heard 11 10] ++ mkPoll false 100 10 10 10 :: [])
  = ([EvSleep (1 # 2)], true)
  /\ disconnects [EvSleep (1 # 2)] = 0%nat.
Proof.
  apply (liveness_stops_with_session (F := no_rounding) session_B [heard 11 10]
           (mkPoll false 100 10 10 10) [] [EvSleep (1 # 2)]);
    reflexivity.
Defined.

End FurtherLivenessWitnesses.

(** ** The TCP control thread, further *)

Section FurtherTcp.
Import PeerConnection.
Context `{J : TCPMessage.Json}.

Implicit Types (st : tcp_state) (w : world) (ws : list world)
  (self : PeerConnection.t).

(** X12. [buffer.split(b'\n', 1)] cuts at the first newline: the line has no
    newline in it and the buffer is the line, the newline and the rest;
    there is no split exactly when the buffer has no newline. *)
Theorem split_line_first_newline (buffer : list byte) :
  match split_line buffer with
  | Some (line, rest) =>
      buffer = line ++ TCPMessage.newline :: rest
      /\ TCPMessage.newline ∉ line
  | None => TCPMessage.newline ∉ buffer
  end.
Proof.
  induction buffer as [|b buffer IH]; cbn [split_line].
  - apply not_elem_of_nil.
  - destruct (Byte.eqb b TCPMessage.newline) eqn:E.
    + apply Byte.byte_dec_bl in E. subst b.
      split; [reflexivity | apply not_elem_of_nil].
    + apply Byte.eqb_false in E.
      destruct (split_line buffer) as [[line rest]|].
      * destruct IH as [-> Hn]. split; [reflexivity|].
        apply not_elem_of_cons. split; [congruence | exact Hn].
      * apply not_elem_of_cons. split; [congruence | exact IH].
Qed.

Lemma split_line_app (line rest : list byte) :
  TCPMessage.newline ∉ line ->
  split_line (line ++ TCPMessage.newline :: rest) = Some (line, rest).
Proof.
  induction line as [|b line IH]; intros Hn; cbn [split_line app].
  - reflexivity.
  - apply not_elem_of_cons in Hn as [Hb Hn].
    destruct (Byte.eqb b TCPMessage.newline) eqn:E.
    + apply Byte.byte_dec_bl in E. congruence.
    + rewrite (IH Hn). reflexivity.
Qed.

(** X13. Two instances of the program understand each other's handshake:
    when the thread waits for the response with an empty buffer and a
    [recv] returns the bytes of [pack_handshake], alone or followed by
    more, it takes the line, keeps the rest in the buffer and goes on to
    the sync phase. *)
Theorem handshake_of_peer_recognised st w (tcp_port udp_port : Z)
    (user : string) (more : list byte) :
  handshake_readable (handshake_object tcp_port udp_port user) ->
  tcp_at st = TcpRecv -> tcp_buffer st = [] -> w_raises w = false ->
  w_chunk w = TCPMessage.pack_handshake tcp_port udp_port user ++ more ->
  tcp_step w st
  = (mkTcp TcpSyncLoop more (tcp_self st),
     [EvRecv (w_chunk w);
      EvHandshakeConsumed
        (TCPMessage.json_dumps (handshake_object tcp_port udp_port user))]).
Proof.
  intros (Hnl & msg & Hl & Ht & Hg) Hat Hbuf Hok Hchunk.
  destruct st as [pc buffer self]. cbn [tcp_at tcp_buffer tcp_self] in *.
  subst pc buffer. unfold tcp_step. cbn [tcp_at tcp_buffer tcp_self].
  rewrite Hok.
  assert (Hc : w_chunk w
               = TCPMessage.json_dumps (handshake_object tcp_port udp_port user)
                   ++ TCPMessage.newline :: more).
  { rewrite Hchunk. unfold TCPMessage.pack_handshake, handshake_object.
    rewrite <- app_assoc. reflexivity. }
  destruct (w_chunk w) as [|b chunk] eqn:E.
  { symmetry in Hc. apply app_eq_nil in Hc as [_ Hc]. discriminate. }
  cbn [app]. rewrite Hc, (split_line_app _ _ Hnl).
  unfold TCPMessage.unpack. rewrite Hl, Ht, Hg. reflexivity.
Qed.

End FurtherTcp.

Section FurtherTcpWitness.
Import PeerConnection.

Lemma handshake_of_peer_recognised_witness :
  let w := go (handshake_line ++ [x7b; x7d; x0a]) in
  tcp_step (J := tag_only_json) w (mkTcp TcpRecv [] session_B)
  = (mkTcp TcpSyncLoop [x7b; x7d; x0a] session_B,
     [EvRecv (w_chunk w);
      EvHandshakeConsumed
        (TCPMessage.json_dumps (Json := tag_only_json)
           (handshake_object 50000 51000 "alice"))]).
Proof.
  intros w.
  apply (handshake_of_peer_recognised (J := tag_only_json)
           (mkTcp TcpRecv [] session_B) w 50000 51000 "alice" [x7b; x7d; x0a]).
  - split.
    + cbn. rewrite !elem_of_cons, elem_of_nil. intuition discriminate.
    + eexists. repeat split.
  - reflexivity.
  - reflexivity.
  - reflexivity.
  - reflexivity.
Defined.

End FurtherTcpWitness.

Section FurtherTcpRuns.
Import PeerConnection.
Context `{J : TCPMessage.Json}.

Implicit Types (st : tcp_state) (w : world) (ws : list world)
  (self : PeerConnection.t).

Ltac tcp_step_cases st :=
  unfold tcp_step, tcp_except, tcp_goto;
  destruct st as [pc buffer self]; cbn [tcp_at tcp_buffer tcp_self];
  destruct pc; repeat case_match; simplify_eq/=.

Lemma tcp_step_rank w st :
  w_running w = false ->
  (tcp_rank (tcp_at (tcp_step w st).1) <= pred (tcp_rank (tcp_at st)))%nat.
Proof. intros Hrun. tcp_step_cases st; lia. Qed.

Lemma tcp_run_rank ws : forall st,
  Forall (fun w => w_running w = false) ws ->
  (tcp_rank (tcp_at (tcp_run ws st).1) <= tcp_rank (tcp_at st) - length ws)%nat.
Proof.
  induction ws as [|w ws IH]; intros st Hw.
  - cbn. lia.
  - apply Forall_cons in Hw as [Hrun Hw]. rewrite tcp_run_cons. cbn [fst length].
    pose proof (tcp_step_rank w st Hrun). specialize (IH (tcp_step w st).1 Hw).
    lia.
Qed.

Lemma tcp_run_returned ws : forall st,
  tcp_at st = TcpReturned -> tcp_run ws st = (st, []).
Proof.
  induction ws as [|w ws IH]; intros st Hat; [reflexivity|].
  rewrite tcp_run_cons.
  assert (Hs : tcp_step w st = (st, []))
    by (unfold tcp_step; rewrite Hat; reflexivity).
  rewrite Hs. cbn [fst snd]. rewrite (IH st Hat). reflexivity.
Qed.

(** X14. The thread honours [stop]: wherever it is, once [running] reads
    false it returns within five of its steps, and from then on it does
    nothing. *)
Theorem tcp_thread_returns_after_stop ws ws' st :
  Forall (fun w => w_running w = false) ws -> (5 <= length ws)%nat ->
  tcp_at (tcp_run ws st).1 = TcpReturned
  /\ tcp_run (ws ++ ws') st = tcp_run ws st.
Proof.
  intros Hw Hlen.
  assert (Hret : tcp_at (tcp_run ws st).1 = TcpReturned).
  { pose proof (tcp_run_rank ws st Hw) as Hr.
    assert (Hst : (tcp_rank (tcp_at st) <= 5)%nat)
      by (destruct (tcp_at st); cbn; lia).
    destruct (tcp_at (tcp_run ws st).1); cbn in Hr; first [reflexivity | lia]. }
  split; [exact Hret|].
  clear Hw Hlen. revert st Hret.
  induction ws as [|w ws IH]; intros st Hret.
  - cbn [app]. apply tcp_run_returned. exact Hret.
  - cbn [app]. rewrite !tcp_run_cons in *. cbn [fst] in Hret.
    rewrite (IH _ Hret). reflexivity.
Qed.

End FurtherTcpRuns.

Section FurtherTcpRetry.
Import PeerConnection.
Context `{J : TCPMessage.Json}.

Implicit Types (st : tcp_state) (w : world) (ws : list world)
  (self : PeerConnection.t).

Lemma step_connect_raises w st :
  tcp_at st = TcpConnect -> w_raises w = true ->
  tcp_step w st
  = (mkTcp TcpLoop (tcp_buffer st)
       (set_tcp_socket None (set_connected false (tcp_self st))),
     cooldown).
Proof. intros Hat Hr. unfold tcp_step. rewrite Hat, Hr. reflexivity. Qed.

Lemma step_sync_loop_running w st :
  tcp_at st = TcpSyncLoop -> w_running w = true ->
  tcp_step w st = (tcp_goto TcpSyncSend st, []).
Proof. intros Hat Hr. unfold tcp_step. rewrite Hat, Hr. reflexivity. Qed.

Lemma step_sync_send_ok w st :
  tcp_at st = TcpSyncSend -> w_raises w = false ->
  tcp_step w st
  = (mkTcp TcpSyncLoop (tcp_buffer st) (set_last_tx_time (w_now w) (tcp_self st)),
     [EvSleep 1; sync_event w]).
Proof. intros Hat Hr. unfold tcp_step. rewrite Hat, Hr. reflexivity. Qed.

Lemma step_sync_send_raises w st :
  tcp_at st = TcpSyncSend -> w_raises w = true ->
  tcp_step w st = (tcp_goto TcpLoop st, [EvSleep 1]).
Proof. intros Hat Hr. unfold tcp_step. rewrite Hat, Hr. reflexivity. Qed.

(** X15. The retry is without bound: as long as the session runs and the
    connect fails, every attempt ends in the handler, which clears
    [connected], closes the socket of the attempt, forgets it and sleeps
    2 seconds before the next attempt. *)
Theorem tcp_retries_failed_connects (attempts : list (world * world)) : forall st,
  tcp_at st = TcpLoop ->
  Forall failed_connect attempts ->
  tcp_at (tcp_run (two_steps attempts) st).1 = TcpLoop
  /\ (tcp_run (two_steps attempts) st).2
     = concat (replicate (length attempts) cooldown)
  /\ (attempts <> [] ->
      connected (tcp_self (tcp_run (two_steps attempts) st).1) = false
      /\ tcp_socket (tcp_self (tcp_run (two_steps attempts) st).1) = None).
Proof.
  induction attempts as [|[w1 w2] attempts IH]; intros st Hat Hall.
  - split; [exact Hat|]. split; [reflexivity|]. intros H. congruence.
  - apply Forall_cons in Hall as [[Hrun Hraise] Hall]. cbn [fst snd] in *.
    change (two_steps ((w1, w2) :: attempts))
      with (w1 :: w2 :: two_steps attempts).
    rewrite tcp_run_cons, (step_loop_running w1 st Hat Hrun). cbn [fst snd].
    rewrite tcp_run_cons, (step_connect_raises w2 (tcp_goto TcpConnect st) eq_refl Hraise).
    cbn [fst snd app].
    match goal with
    | |- context [tcp_run _ ?s] => destruct (IH s eq_refl Hall) as (I1 & I2 & I3)
    end.
    split; [exact I1|]. split.
    + rewrite I2. reflexivity.
    + intros _. destruct attempts as [|a attempts].
      * split; reflexivity.
      * apply I3. discriminate.
Qed.

(** X16. In the sync phase a [sendall] that raises only ends the phase: after
    any number of sync messages sent, each carrying the receive counters
    as its pass read them, the failed one leaves [connected] and the
    socket as they were, with nothing closed, and the thread is back at
    the head of its connect loop. *)
Theorem sync_failure_keeps_connected (passes : list (world * world))
    (wl wf : world) : forall st,
  tcp_at st = TcpSyncLoop ->
  Forall sync_sent passes ->
  w_running wl = true -> w_raises wf = true ->
  let run := tcp_run (two_steps passes ++ [wl; wf]) st in
  tcp_at run.1 = TcpLoop
  /\ connected (tcp_self run.1) = connected (tcp_self st)
  /\ tcp_socket (tcp_self run.1) = tcp_socket (tcp_self st)
  /\ run.2
     = (passes ≫= fun a => [EvSleep 1; sync_event a.2]) ++ [EvSleep 1].
Proof.
  induction passes as [|[w1 w2] passes IH]; intros st Hat Hall Hl Hf; cbn zeta.
  - change (two_steps [] ++ [wl; wf]) with [wl; wf].
    rewrite tcp_run_cons, (step_sync_loop_running wl st Hat Hl). cbn [fst snd].
    rewrite tcp_run_cons, (step_sync_send_raises wf (tcp_goto TcpSyncSend st) eq_refl Hf).
    repeat split.
  - apply Forall_cons in Hall as [[Hrun Hok] Hall]. cbn [fst snd] in *.
    change (two_steps ((w1, w2) :: passes) ++ [wl; wf])
      with (w1 :: w2 :: (two_steps passes ++ [wl; wf])).
    rewrite tcp_run_cons, (step_sync_loop_running w1 st Hat Hrun). cbn [fst snd].
    rewrite tcp_run_cons, (step_sync_send_ok w2 (tcp_goto TcpSyncSend st) eq_refl Hok). cbn [fst snd app].
    match goal with
    | |- context [tcp_run _ ?s] =>
        destruct (IH s eq_refl Hall Hl Hf) as (I1 & I2 & I3 & I4)
    end.
    cbn zeta in I4. rewrite I1, I2, I3, I4. repeat split.
Qed.

End FurtherTcpRetry.

Section FurtherTcpRunWitnesses.
Import PeerConnection.

Lemma tcp_thread_returns_after_stop_witness :
  let ws := replicate 5 (mkWorld false false [] 0 0 0 0) in
  let st := mkTcp TcpConnect [] session_B in
  tcp_at (tcp_run (J := tag_only_json) ws st).1 = TcpReturned
  /\ tcp_run (J := tag_only_json) (ws ++ [go []]) st
     = tcp_run (J := tag_only_json) ws st.
Proof.
  intros ws st.
  apply (tcp_thread_returns_after_stop (J := tag_only_json) ws [go []] st).
  - repeat (apply Forall_cons_2; [reflexivity|]). apply Forall_nil_2.
  - cbn. lia.
Defined.

Lemma tcp_retries_failed_connects_witness :
  let attempts := [(go [], fail); (go [], fail)] in
  let st := mkTcp TcpLoop [] session_B in
  tcp_at (tcp_run (J := tag_only_json) (two_steps attempts) st).1 = TcpLoop
  /\ (tcp_run (J := tag_only_json) (two_steps attempts) st).2
     = concat (replicate (length attempts) cooldown)
  /\ (attempts <> [] ->
      connected (tcp_self (tcp_run (J := tag_only_json) (two_steps attempts) st).1)
      = false
      /\ tcp_socket (tcp_self (tcp_run (J := tag_only_json)
                                 (two_steps attempts) st).1) = None).
Proof.
  intros attempts st.
  apply (tcp_retries_failed_connects (J := tag_only_json) attempts st).
  - reflexivity.
  - repeat (apply Forall_cons_2; [split; reflexivity|]). apply Forall_nil_2.
Defined.

Lemma sync_failure_keeps_connected_witness :
  let st := mkTcp TcpSyncLoop []
              (set_tcp_socket (Some SockStream) (set_connected true session_B)) in
  let passes := [(go [], mkWorld true false [] 5 0 0 0);
                 (go [], mkWorld true false [] 6 3 30 (11 # 2))] in
  let run := tcp_run (J := tag_only_json) (two_steps passes ++ [go []; fail]) st in
  tcp_at run.1 = TcpLoop
  /\ connected (tcp_self run.1) = connected (tcp_self st)
  /\ tcp_socket (tcp_self run.1) = tcp_socket (tcp_self st)
  /\ run.2
     = (passes ≫= fun a => [EvSleep 1; sync_event (J := tag_only_json) a.2])
         ++ [EvSleep 1].
Proof.
  intros st passes.
  apply (sync_failure_keeps_connected (J := tag_only_json)
           passes (go []) fail st).
  - reflexivity.
  - repeat (apply Forall_cons_2; [split; reflexivity|]). apply Forall_nil_2.
  - reflexivity.
  - reflexivity.
Defined.

End FurtherTcpRunWitnesses.

(** ** The registry, further *)

Section FurtherManager.
Import NetworkManager.

Implicit Types (m : NetworkManager.t) (c : call) (o : op) (os : list op)
  (p : PeerConnection.t).

Lemma connect_cases c m :
  (is_Some (peers m !! c_name c) /\ connect c m = m)
  \/ (peers m !! c_name c = None
      /\ connect c m
         = set_peers (<[c_name c := new_peer m (c_name c) (c_address c) (c_port c)]>
                        (peers m))
             (set_next_port_offset (next_port_offset m + 1) m)).
Proof.
  unfold connect. destruct (peers m !! c_name c) as [p|] eqn:Hp.
  - left. split; [eauto|]. rewrite connect_to_peer_known by eauto. reflexivity.
  - right. split; [reflexivity|]. apply connect_to_peer_fresh, Hp.
Qed.

Lemma disconnect_peer_state (name : string) m :
  (disconnect_peer name m).1
  = match peers m !! name with
    | Some _ => set_peers (delete name (peers m)) m
    | None => m
    end.
Proof. unfold disconnect_peer. destruct (peers m !! name); reflexivity. Qed.

Lemma apply_op_settings o m :
  settings (apply_op o m) = settings m
  /\ next_port_offset m <= next_port_offset (apply_op o m).
Proof.
  destruct o as [c|name|name|x y wx wy b|]; cbn [apply_op].
  - destruct (connect_cases c m) as [[_ ->]|[_ ->]]; cbn; split; (reflexivity || lia).
  - rewrite disconnect_peer_state. destruct (peers m !! name); cbn;
      split; (reflexivity || lia).
  - unfold handle_peer_disconnect. rewrite disconnect_peer_state.
    destruct (peers m !! name); cbn; split; (reflexivity || lia).
  - cbn. split; (reflexivity || lia).
  - cbn. split; (reflexivity || lia).
Qed.

Lemma made_by_weaken m m' (name : string) p :
  settings m' = settings m ->
  next_port_offset m <= next_port_offset m' ->
  made_by m name p -> made_by m' name p.
Proof.
  unfold settings, made_by. intros [= Hu _ Ht Hd] Ho (H1 & H2 & H3 & H4 & k & Hk & Hkt & Hku).
  rewrite Hu, Ht, Hd. repeat split; try assumption.
  exists k. repeat split; (assumption || lia).
Qed.

Lemma registry_wf_sub m m' :
  settings m' = settings m ->
  next_port_offset m <= next_port_offset m' ->
  (forall (name : string) p, peers m' !! name = Some p -> peers m !! name = Some p) ->
  registry_wf m -> registry_wf m'.
Proof.
  intros Hs Ho Hsub (Hpos & Hmade & Hdist). split; [lia|]. split.
  - intros name p Hp. eapply made_by_weaken; eauto.
  - intros n1 n2 p1 p2 Hne H1 H2.
    exact (Hdist n1 n2 p1 p2 Hne (Hsub _ _ H1) (Hsub _ _ H2)).
Qed.

Lemma registry_wf_connect c m : registry_wf m -> registry_wf (connect c m).
Proof.
  intros Hwf. destruct (connect_cases c m) as [[_ ->]|[Hnew Hc]]; [exact Hwf|].
  destruct Hwf as (Hpos & Hmade & Hdist).
  pose proof (apply_op_settings (OpConnect c) m) as [Hs Ho]. cbn [apply_op] in Hs, Ho.
  assert (Hoff : next_port_offset (connect c m) = next_port_offset m + 1)
    by (rewrite Hc; reflexivity).
  assert (Hnp : made_by (connect c m) (c_name c)
                  (new_peer m (c_name c) (c_address c) (c_port c))).
  { unfold made_by. rewrite Hoff.
    injection Hs as Hu _ Ht Hd. rewrite Hu, Ht, Hd.
    repeat split. exists (next_port_offset m). repeat split; lia. }
  assert (Hlook : forall (name : string) p,
             peers (connect c m) !! name = Some p ->
             (name = c_name c
              /\ p = new_peer m (c_name c) (c_address c) (c_port c))
             \/ (name <> c_name c /\ peers m !! name = Some p)).
  { intros name p. rewrite Hc. cbn [peers set_peers].
    destruct (decide (name = c_name c)) as [->|Hne].
    - rewrite lookup_insert_eq. intros [= <-]. auto.
    - rewrite lookup_insert_ne by congruence. auto. }
  split; [lia|]. split.
  - intros name p Hp. destruct (Hlook name p Hp) as [[-> ->]|[_ Hp']];
      [exact Hnp|]. eapply made_by_weaken; eauto.
  - intros n1 n2 p1 p2 Hne H1 H2.
    destruct (Hlook n1 p1 H1) as [[-> ->]|[Hn1 H1']];
      destruct (Hlook n2 p2 H2) as [[-> ->]|[Hn2 H2']].
    + congruence.
    + destruct (Hmade n2 p2 H2') as (_ & _ & _ & _ & k & Hk & Hkt & Hku).
      rewrite Hkt, Hku. cbn. lia.
    + destruct (Hmade n1 p1 H1') as (_ & _ & _ & _ & k & Hk & Hkt & Hku).
      rewrite Hkt, Hku. cbn. lia.
    + exact (Hdist n1 n2 p1 p2 Hne H1' H2').
Qed.

Lemma registry_wf_step o m : registry_wf m -> registry_wf (apply_op o m).
Proof.
  intros Hwf.
  destruct (apply_op_settings o m) as [Hs Ho].
  destruct o as [c|name|name|x y wx wy b|]; cbn [apply_op] in *.
  - apply registry_wf_connect, Hwf.
  - eapply registry_wf_sub; eauto. intros n p.
    rewrite disconnect_peer_state. destruct (peers m !! name); [|auto].
    cbn [peers set_peers]. intros Hp. apply lookup_delete_Some in Hp. tauto.
  - eapply registry_wf_sub; eauto. intros n p.
    unfold handle_peer_disconnect. rewrite disconnect_peer_state.
    destruct (peers m !! name); [|auto].
    cbn [peers set_peers]. intros Hp. apply lookup_delete_Some in Hp. tauto.
  - destruct Hwf as (Hpos & Hmade & Hdist).
    assert (Hlook : forall (n : string) p,
               peers (update_mouse_state x y wx wy b m) !! n = Some p ->
               exists q, peers m !! n = Some q
                         /\ p = PeerConnection.update_mouse_state x y wx wy b q).
    { intros n p. cbn [update_mouse_state peers set_peers].
      rewrite lookup_fmap. destruct (peers m !! n) as [q|]; [|discriminate].
      intros [= <-]. eauto. }
    split; [exact Hpos|]. split.
    + intros n p Hp. destruct (Hlook n p Hp) as (q & Hq & ->).
      exact (Hmade n q Hq).
    + intros n1 n2 p1 p2 Hne H1 H2.
      destruct (Hlook n1 p1 H1) as (q1 & Hq1 & ->).
      destruct (Hlook n2 p2 H2) as (q2 & Hq2 & ->).
      exact (Hdist n1 n2 q1 q2 Hne Hq1 Hq2).
  - eapply registry_wf_sub; eauto. intros n p. cbn. rewrite lookup_empty.
    discriminate.
Qed.

Lemma apply_ops_snoc os o m :
  apply_ops (os ++ [o]) m = apply_op o (apply_ops os m).
Proof. unfold apply_ops. rewrite fold_left_app. reflexivity. Qed.

Lemma apply_ops_settings os : forall m,
  settings (apply_ops os m) = settings m
  /\ next_port_offset m <= next_port_offset (apply_ops os m).
Proof.
  induction os as [|o os IH]; intros m; [cbn; split; (reflexivity || lia)|].
  change (apply_ops (o :: os) m) with (apply_ops os (apply_op o m)).
  destruct (IH (apply_op o m)) as [I1 I2].
  destruct (apply_op_settings o m) as [H1 H2].
  split; [congruence | lia].
Qed.

Lemma apply_ops_wf os : forall m, registry_wf m -> registry_wf (apply_ops os m).
Proof.
  induction os as [|o os IH]; intros m Hwf; [exact Hwf|].
  change (apply_ops (o :: os) m) with (apply_ops os (apply_op o m)).
  apply IH, registry_wf_step, Hwf.
Qed.

Lemma registry_wf_init (user : string) (cb : option callback) :
  registry_wf (init user cb).
Proof.
  split; [cbn; lia|]. split.
  - intros name p. cbn. rewrite lookup_empty. discriminate.
  - intros n1 n2 p1 p2 _. cbn. rewrite lookup_empty. discriminate.
Qed.

(** X17. Whatever calls have been made on a manager since it was created
    (connects, disconnects, timeouts, mouse updates, stops), every
    registered session is one the manager made under that name, with
    local ports 50000 + k and 51000 + k at an offset k already handed
    out, and two registered sessions never share a local port. *)
Theorem registry_always_well_formed (user : string) (cb : option callback) os :
  let m := apply_ops os (init user cb) in
  base_tcp_port m = 50000 /\ base_udp_port m = 51000
  /\ 0 <= next_port_offset m
  /\ (forall (name : string) p, peers m !! name = Some p -> made_by m name p)
  /\ distinct_ports m.
Proof.
  intros m.
  destruct (apply_ops_settings os (init user cb)) as [Hs _]. fold m in Hs.
  injection Hs as _ _ Ht Hu.
  split; [exact Ht|]. split; [exact Hu|].
  exact (apply_ops_wf os _ (registry_wf_init user cb)).
Qed.

(** X18. [disconnect_peer] forgets the session under the name, after
    stopping it, and nothing else: the other sessions and the port
    offset stay; for a name that is not registered it does nothing, so a
    second call is without effect. *)
Theorem disconnect_peer_forgets_one (name : string) m :
  let m' := (disconnect_peer name m).1 in
  peers m' !! name = None
  /\ (forall other : string, other <> name -> peers m' !! other = peers m !! other)
  /\ next_port_offset m' = next_port_offset m
  /\ (disconnect_peer name m).2
     = match peers m !! name with
       | Some p => (PeerConnection.stop p).2
       | None => []
       end
  /\ (peers m !! name = None -> m' = m)
  /\ disconnect_peer name m' = (m', []).
Proof.
  intros m'.
  assert (Hgone : peers m' !! name = None).
  { unfold m'. rewrite disconnect_peer_state.
    destruct (peers m !! name) eqn:E; [|exact E].
    cbn [peers set_peers]. apply lookup_delete_eq. }
  split; [exact Hgone|]. split; [|split; [|split; [|split]]].
  - intros other Hne. unfold m'. rewrite disconnect_peer_state.
    destruct (peers m !! name); [|reflexivity].
    cbn [peers set_peers]. apply lookup_delete_ne. congruence.
  - unfold m'. rewrite disconnect_peer_state.
    destruct (peers m !! name); reflexivity.
  - unfold disconnect_peer. destruct (peers m !! name) as [p|]; [|reflexivity].
    destruct (PeerConnection.stop p). reflexivity.
  - intros Hnone. unfold m'. rewrite disconnect_peer_state, Hnone. reflexivity.
  - unfold disconnect_peer at 1. rewrite Hgone. reflexivity.
Qed.

(** X19. Local ports are never handed out twice: a session registered at any
    time has lower local ports than a session registered for a new name
    at any later time, whatever was disconnected, timed out or stopped in
    between. *)
Theorem local_ports_never_reused (user : string) (cb : option callback)
    (os1 os2 : list op) (name1 : string) p1 c :
  let m1 := apply_ops os1 (init user cb) in
  let m2 := apply_ops os2 m1 in
  peers m1 !! name1 = Some p1 ->
  peers m2 !! c_name c = None ->
  exists p2,
    peers (connect c m2) !! c_name c = Some p2
    /\ PeerConnection.local_tcp_port p1 < PeerConnection.local_tcp_port p2
    /\ PeerConnection.local_udp_port p1 < PeerConnection.local_udp_port p2.
Proof.
  intros m1 m2 Hp1 Hnew.
  destruct (apply_ops_wf os1 _ (registry_wf_init user cb)) as (_ & Hmade & _).
  fold m1 in Hmade.
  destruct (Hmade name1 p1 Hp1) as (_ & _ & _ & _ & k & Hk & Hkt & Hku).
  destruct (apply_ops_settings os2 m1) as [Hs Ho]. fold m2 in Hs, Ho.
  injection Hs as _ _ Ht Hu.
  destruct (connect_cases c m2) as [[[q Hq] _]|[_ ->]]; [congruence|].
  cbn [peers set_peers]. rewrite lookup_insert_eq.
  eexists. split; [reflexivity|]. cbn. lia.
Qed.

Lemma local_ports_never_reused_witness :
  let os1 := [OpConnect peer_B] in
  let os2 := [OpPeerTimeout "B"; OpStop] in
  exists p2,
    peers (connect peer_B (apply_ops os2 (apply_ops os1 manager0))) !! c_name peer_B
    = Some p2
    /\ PeerConnection.local_tcp_port session_B < PeerConnection.local_tcp_port p2
    /\ PeerConnection.local_udp_port session_B < PeerConnection.local_udp_port p2.
Proof.
  intros os1 os2.
  apply (local_ports_never_reused "alice" (Some (HostCallback 0)) os1 os2
           "B" session_B peer_B).
  - unfold os1, apply_ops. cbn [fold_left apply_op]. unfold connect, peer_B.
    rewrite connect_to_peer_fresh by reflexivity.
    cbn [peers set_peers c_name]. rewrite lookup_insert_eq. reflexivity.
  - reflexivity.
Defined.

(** X20. When binding the UDP port fails, [connect_to_peer] raises after the
    session was registered: the name stays in the registry with a
    session marked running that has no thread, the port offset is used
    up, and calling [connect_to_peer] again for that name does nothing. *)
Theorem bind_failure_leaves_session_registered m (name address : string)
    (port : Z) :
  peers m !! name = None ->
  let '(m', ev, r) := connect_to_peer name address port true m in
  r = Raise OSError /\ ev = []
  /\ (exists p,
         peers m' !! name = Some p
         /\ PeerConnection.running p = true
         /\ PeerConnection.udp_socket p = Some SockDgram)
  /\ next_port_offset m' = next_port_offset m + 1
  /\ forall (address' : string) (port' : Z) (bind_raises : bool),
       connect_to_peer name address' port' bind_raises m' = (m', [], Ok tt).
Proof.
  intros Hnew. unfold connect_to_peer at 1. rewrite Hnew. cbn.
  split; [reflexivity|]. split; [reflexivity|]. split; [|split; [reflexivity|]].
  - rewrite lookup_insert_eq. eexists. repeat split.
  - intros address' port' bind_raises. apply connect_to_peer_known.
    cbn [peers set_peers]. rewrite lookup_insert_eq. eauto.
Qed.

Lemma bind_failure_leaves_session_registered_witness :
  let '(m', ev, r) := connect_to_peer "B" "10.0.0.5" 51000 true manager0 in
  r = Raise OSError /\ ev = []
  /\ (exists p,
         peers m' !! "B" = Some p
         /\ PeerConnection.running p = true
         /\ PeerConnection.udp_socket p = Some SockDgram)
  /\ next_port_offset m' = next_port_offset manager0 + 1
  /\ forall (address' : string) (port' : Z) (bind_raises : bool),
       connect_to_peer "B" address' port' bind_raises m' = (m', [], Ok tt).
Proof.
  apply (bind_failure_leaves_session_registered manager0 "B" "10.0.0.5" 51000).
  reflexivity.
Defined.

(** A successful [connect_to_peer] for a new name binds the UDP socket
    on the session's local UDP port and launches the four threads, in
    the order of [start]. *)
Theorem connect_starts_four_threads m (name address : string) (port : Z) :
  peers m !! name = None ->
  let '(m', ev, r) := connect_to_peer name address port false m in
  r = Ok tt
  /\ ev = [EvBind (base_udp_port m + next_port_offset m);
           EvSpawn UdpTransmitLoop; EvSpawn UdpReceiveLoop;
           EvSpawn TcpConnectAndSync; EvSpawn CheckLiveness]
  /\ size (peers m') = S (size (peers m))
  /\ exists p,
       peers m' !! name = Some p
       /\ PeerConnection.running p = true
       /\ PeerConnection.connected p = false
       /\ snapshot p = (0, 0, 0, 0, 0).
Proof.
  intros Hnew. unfold connect_to_peer. rewrite Hnew. cbn.
  split; [reflexivity|]. split; [reflexivity|]. split.
  - apply map_size_insert_None, Hnew.
  - rewrite lookup_insert_eq. eexists. repeat split.
Qed.

Lemma connect_starts_four_threads_witness :
  let '(m', ev, r) := connect_to_peer "B" "10.0.0.5" 51000 false manager0 in
  r = Ok tt
  /\ ev = [EvBind (base_udp_port manager0 + next_port_offset manager0);
           EvSpawn UdpTransmitLoop; EvSpawn UdpReceiveLoop;
           EvSpawn TcpConnectAndSync; EvSpawn CheckLiveness]
  /\ size (peers m') = S (size (peers manager0))
  /\ exists p,
       peers m' !! "B" = Some p
       /\ PeerConnection.running p = true
       /\ PeerConnection.connected p = false
       /\ snapshot p = (0, 0, 0, 0, 0).
Proof.
  apply (connect_starts_four_threads manager0 "B" "10.0.0.5" 51000).
  reflexivity.
Defined.

(** [update_mouse_state] on the manager touches the snapshots only: the
    same names stay registered, the port offset stays, and a second
    update overwrites the first in every session. *)
Theorem manager_update_last_write_wins (x y wx wy b x' y' wx' wy' b' : Z) m :
  let m1 := update_mouse_state x y wx wy b m in
  dom (peers m1) = dom (peers m)
  /\ next_port_offset m1 = next_port_offset m
  /\ update_mouse_state x' y' wx' wy' b' m1
     = update_mouse_state x' y' wx' wy' b' m.
Proof.
  intros m1. split; [|split; [reflexivity|]].
  - unfold m1. cbn [update_mouse_state peers set_peers]. apply dom_fmap_L.
  - unfold m1, update_mouse_state. cbn [peers set_peers].
    rewrite <- map_fmap_compose. reflexivity.
Qed.

End FurtherManager.

(** ** Sessions and the manager together *)

Section FurtherWiring.
Import NetworkManager.

Implicit Types (m : NetworkManager.t) (p : PeerConnection.t).

Lemma check_liveness_disconnect_event `{F : FloatArith} p polls :
  disconnects (PeerConnection.check_liveness p polls).1 = 1%nat ->
  exists cb,
    PeerConnection.on_disconnect p = Some cb
    /\ EvDisconnect cb (PeerConnection.peer_name p)
       ∈ (PeerConnection.check_liveness p polls).1.
Proof.
  induction polls as [|q polls IH]; cbn [PeerConnection.check_liveness].
  - discriminate.
  - destruct (PeerConnection.p_running q); [|discriminate].
    destruct (PeerConnection.timed_out q).
    + cbn [fst]. unfold PeerConnection.fire_disconnect.
      destruct (PeerConnection.on_disconnect p) as [cb|]; [|discriminate].
      intros _. exists cb. split; [reflexivity|].
      apply elem_of_cons. right. apply elem_of_cons. left. reflexivity.
    + destruct (PeerConnection.check_liveness p polls) as [ev r].
      cbn [fst] in *. intros H. destruct (IH H) as (cb & Hcb & Hin).
      exists cb. split; [exact Hcb|]. apply elem_of_cons. right. exact Hin.
Qed.

(** X21. A liveness timeout makes the manager forget the peer: the call the
    liveness thread of a registered session makes is the manager's own
    disconnect handler with the name the session is registered under,
    and handling it stops that session and removes it, leaving the other
    sessions registered. *)
Theorem timeout_forgets_peer `{F : FloatArith} m (name : string) p polls :
  peers m !! name = Some p ->
  made_by m name p ->
  disconnects (PeerConnection.check_liveness p polls).1 = 1%nat ->
  let e := EvDisconnect ManagerHandlePeerDisconnect name in
  e ∈ (PeerConnection.check_liveness p polls).1
  /\ peers (dispatch e m).1 !! name = None
  /\ (forall other : string,
         other <> name -> peers (dispatch e m).1 !! other = peers m !! other)
  /\ (dispatch e m).2 = (PeerConnection.stop p).2.
Proof.
  intros Hp (Hname & _ & _ & Hcb & _) Hfire e.
  destruct (check_liveness_disconnect_event p polls Hfire) as (cb & Hcb' & Hin).
  rewrite Hcb in Hcb'. injection Hcb' as <-. rewrite Hname in Hin.
  split; [exact Hin|].
  unfold e. cbn [dispatch]. unfold handle_peer_disconnect, disconnect_peer.
  rewrite Hp. destruct (PeerConnection.stop p) as [p' ev] eqn:Es.
  cbn [fst snd peers set_peers].
  split; [apply lookup_delete_eq|]. split; [|reflexivity].
  intros other Hne. apply lookup_delete_ne. congruence.
Qed.

Lemma timeout_forgets_peer_witness :
  let m := connect peer_B manager0 in
  let polls := [PeerConnection.mkPoll true 13 10 10 10] in
  let e := EvDisconnect ManagerHandlePeerDisconnect "B" in
  e ∈ (PeerConnection.check_liveness (F := no_rounding) session_B polls).1
  /\ peers (dispatch e m).1 !! "B" = None
  /\ (forall other : string,
         other <> "B" -> peers (dispatch e m).1 !! other = peers m !! other)
  /\ (dispatch e m).2 = (PeerConnection.stop session_B).2.
Proof.
  intros m polls.
  apply (timeout_forgets_peer (F := no_rounding) m "B" session_B polls).
  - unfold m, connect, peer_B. rewrite connect_to_peer_fresh by reflexivity.
    cbn [peers set_peers c_name]. rewrite lookup_insert_eq. reflexivity.
  - unfold made_by. repeat split. exists 0. cbn. repeat split; lia.
  - reflexivity.
Defined.

(** X22. An inbound mouse frame reaches the host: a datagram that decodes as
    a mouse frame, received by a session the manager made, is passed to
    the manager, which passes it on unchanged to the host's callback with
    the name the session is registered under; the manager itself does not
    change. *)
Theorem inbound_frame_reaches_host m (name : string) p (host : callback)
    (data : list byte) (now : Q) (sequence x y wheel_x wheel_y buttons : Z) :
  made_by m name p ->
  on_mouse_data m = Some host ->
  UDPPacket.unpack data
  = Ok (Some (UDPPacket.MouseAbsolute sequence x y wheel_x wheel_y buttons)) ->
  exists e,
    (PeerConnection.udp_receive_iter (PeerConnection.RecvDatagram data now) p).2
    = [e]
    /\ dispatch e m
       = (m, [EvMouseData host name
                (UDPPacket.MouseAbsolute sequence x y wheel_x wheel_y buttons)]).
Proof.
  intros (Hname & _ & Hmd & _) Hhost Hu.
  cbn [PeerConnection.udp_receive_iter]. rewrite Hu.
  change (PeerConnection.on_mouse_data
            (PeerConnection.record_rx (Z.of_nat (length data)) now p))
    with (PeerConnection.on_mouse_data p).
  change (PeerConnection.peer_name
            (PeerConnection.record_rx (Z.of_nat (length data)) now p))
    with (PeerConnection.peer_name p).
  rewrite Hmd, Hname. eexists. split; [reflexivity|].
  cbn [dispatch]. unfold handle_mouse_data. rewrite Hhost. reflexivity.
Qed.

Lemma inbound_frame_reaches_host_witness :
  let data := [x00; x07; x01; x00; x64; x00; xc8; x01; xff; x05] in
  exists e,
    (PeerConnection.udp_receive_iter (PeerConnection.RecvDatagram data 5)
       session_B).2 = [e]
    /\ dispatch e (connect peer_B manager0)
       = (connect peer_B manager0,
          [EvMouseData (HostCallback 0) "B"
             (UDPPacket.MouseAbsolute 7 100 200 1 (-1) 5)]).
Proof.
  intros data.
  apply (inbound_frame_reaches_host (connect peer_B manager0) "B" session_B
           (HostCallback 0) data 5 7 100 200 1 (-1) 5).
  - unfold made_by. repeat split. exists 0.
    unfold connect, peer_B. rewrite connect_to_peer_fresh by reflexivity.
    cbn. repeat split; lia.
  - unfold connect, peer_B. rewrite connect_to_peer_fresh by reflexivity.
    reflexivity.
  - reflexivity.
Defined.

End FurtherWiring.

(** ** [MouseCapture] *)

Section FurtherCapture.
Import MouseCapture.

Implicit Types (s : MouseCapture.t) (i : input) (inputs : list input).

Lemma buttons_step (siblings : bool) (b : button) (pressed : bool) (v : Z) :
  0 <= v <= 7 ->
  0 <= (if pressed then Z.lor v (button_bit siblings b)
        else Z.land v (Z.lnot (button_bit siblings b))) <= 7.
Proof.
  intros Hv.
  assert (Hc : v = 0 \/ v = 1 \/ v = 2 \/ v = 3 \/ v = 4 \/ v = 5 \/ v = 6 \/ v = 7)
    by lia.
  destruct siblings, b, pressed;
    decompose [or] Hc; subst v; vm_compute; split; discriminate.
Qed.

Lemma handle_wf i s :
  capture_wf s ->
  capture_wf (handle i s).1 /\ Forall notified_in_range (handle i s).2.
Proof.
  intros (Hx & Hy & Hwx & Hwy & Hb).
  destruct i as [px py|siblings b pressed|dx dy];
    cbn [handle on_move on_click on_scroll notify_update fst snd];
    unfold capture_wf; cbn [x y wheel_x wheel_y buttons on_mouse_update].
  - split; [repeat split; lia|].
    destruct (on_mouse_update s); constructor; [|constructor].
    cbn. unfold args_in_range. lia.
  - pose proof (buttons_step siblings b pressed (buttons s) Hb) as Hb'.
    split; [repeat split; lia|].
    destruct (on_mouse_update s); constructor; [|constructor].
    cbn. unfold args_in_range. lia.
  - split; [repeat split; lia|].
    destruct (on_mouse_update s); constructor; [|constructor].
    cbn. unfold args_in_range. lia.
Qed.

Lemma handle_all_wf inputs : forall s,
  capture_wf s ->
  capture_wf (handle_all inputs s).1
  /\ Forall notified_in_range (handle_all inputs s).2.
Proof.
  induction inputs as [|i inputs IH]; intros s Hwf; cbn [handle_all].
  - split; [exact Hwf | constructor].
  - destruct (handle_wf i s Hwf) as [H1 H2].
    destruct (handle i s) as [s1 n1]. cbn [fst snd] in *.
    destruct (IH s1 H1) as [H3 H4].
    destruct (handle_all inputs s1) as [s2 n2]. cbn [fst snd] in *.
    split; [exact H3 | apply Forall_app; auto].
Qed.

(** X23. Whatever the listener reports, every notification of the capture
    carries a position in [0,65535], wheel deltas in [-128,127] and
    buttons in [0,255], in fact in [0,7]; and between two handlers the
    capture holds no wheel delta. *)
Theorem capture_notifies_in_range (cb : option callback) inputs :
  Forall notified_in_range (handle_all inputs (init cb)).2
  /\ capture_wf (handle_all inputs (init cb)).1
  /\ get_state (handle_all inputs (init cb)).1
     = (x (handle_all inputs (init cb)).1, y (handle_all inputs (init cb)).1,
        0, 0, buttons (handle_all inputs (init cb)).1).
Proof.
  destruct (handle_all_wf inputs (init cb)) as [Hwf Hn].
  { unfold capture_wf. cbn. lia. }
  split; [exact Hn|]. split; [exact Hwf|].
  destruct Hwf as (_ & _ & Hwx & Hwy & _).
  unfold get_state. rewrite Hwx, Hwy. reflexivity.
Qed.

(** X24. The wheel delta of a scroll is reported once, clamped to
    [-128,127] on its own: since every notification resets the deltas,
    nothing is carried over from one scroll to the next. *)
Theorem scroll_reports_clamped_delta (cb : callback) inputs (dx dy : Z) :
  let s := (handle_all inputs (init (Some cb))).1 in
  (on_scroll dx dy s).2
  = [Notify cb (x s) (y s)
       (Z.max (-128) (Z.min 127 dx)) (Z.max (-128) (Z.min 127 dy))
       (buttons s)]
  /\ wheel_x (on_scroll dx dy s).1 = 0
  /\ wheel_y (on_scroll dx dy s).1 = 0.
Proof.
  intros s.
  assert (Hcb : forall inputs s0,
             on_mouse_update (handle_all inputs s0).1 = on_mouse_update s0).
  { clear. intros inputs. induction inputs as [|i inputs IH]; intros s0;
      cbn [handle_all]; [reflexivity|].
    destruct (handle i s0) as [s1 n1] eqn:E.
    specialize (IH s1). destruct (handle_all inputs s1) as [s2 n2].
    cbn [fst] in *. rewrite IH.
    destruct i; cbn in E; injection E as <- _; reflexivity. }
  destruct (handle_all_wf inputs (init (Some cb))) as [(_ & _ & Hwx & Hwy & _) _].
  { unfold capture_wf. cbn. lia. }
  fold s in Hwx, Hwy.
  cbn [on_scroll notify_update fst snd on_mouse_update x y wheel_x wheel_y buttons].
  unfold s at 1. rewrite Hcb. cbn [init on_mouse_update].
  rewrite Hwx, Hwy. repeat split.
Qed.

(** X25. Pressing a button sets its bit and releasing it clears it, without
    touching the bits of the other buttons; a button the handler does
    not know leaves the buttons as they are. *)
Theorem click_sets_and_clears_one_bit (b b' : button) s :
  0 <= buttons s <= 7 ->
  let bit := button_bit true b in
  let down := buttons (on_click true b true s).1 in
  let up := buttons (on_click true b false s).1 in
  Z.land down bit = bit
  /\ Z.land up bit = 0
  /\ (button_bit true b' <> bit ->
      Z.land down (button_bit true b') = Z.land (buttons s) (button_bit true b')
      /\ Z.land up (button_bit true b') = Z.land (buttons s) (button_bit true b'))
  /\ (b = ButtonOther -> down = buttons s /\ up = buttons s).
Proof.
  intros Hv.
  assert (Hc : buttons s = 0 \/ buttons s = 1 \/ buttons s = 2 \/ buttons s = 3
               \/ buttons s = 4 \/ buttons s = 5 \/ buttons s = 6 \/ buttons s = 7)
    by lia.
  cbn [on_click notify_update fst buttons].
  destruct b, b'; decompose [or] Hc;
    match goal with H : buttons s = _ |- _ => rewrite H end;
    cbn; repeat split; intros; (reflexivity || congruence).
Qed.

Lemma click_sets_and_clears_one_bit_witness :
  let s := (handle_all [Click true ButtonRight true] (init None)).1 in
  let bit := button_bit true ButtonLeft in
  let down := buttons (on_click true ButtonLeft true s).1 in
  let up := buttons (on_click true ButtonLeft false s).1 in
  Z.land down bit = bit
  /\ Z.land up bit = 0
  /\ (button_bit true ButtonRight <> bit ->
      Z.land down (button_bit true ButtonRight)
      = Z.land (buttons s) (button_bit true ButtonRight)
      /\ Z.land up (button_bit true ButtonRight)
         = Z.land (buttons s) (button_bit true ButtonRight))
  /\ (ButtonLeft = ButtonOther -> down = buttons s /\ up = buttons s).
Proof.
  intros s.
  apply (click_sets_and_clears_one_bit ButtonLeft ButtonRight s).
  vm_compute. split; discriminate.
Defined.

End FurtherCapture.

(** ** The discovered instances of [KoatsumeApp] *)

Section FurtherApp.
Import KoatsumeApp.
Context `{F : FloatArith}.

Implicit Types (s : KoatsumeApp.t) (i : info) (l : list instance).



Lemma replace_existing_cases (new : instance) l :
  match replace_existing new l with
  | Some l' =>
      name new ∈ name <$> l
      /\ name <$> l' = name <$> l
      /\ length l' = length l
      /\ new ∈ l'
  | None => name new ∉ name <$> l
  end.
Proof.
  induction l as [|e l IH]; cbn [replace_existing].
  - apply not_elem_of_nil.
  - destruct (String.eqb (name e) (name new)) eqn:E.
    + apply String.eqb_eq in E. rewrite !fmap_cons, E.
      repeat split; [left | left].
    + apply String.eqb_neq in E.
      destruct (replace_existing new l) as [l'|]; cbn [fmap option_fmap option_map].
      * destruct IH as (H1 & H2 & H3 & H4). rewrite !fmap_cons, H2.
        cbn [length]. repeat split; [right; exact H1 | lia | right; exact H4].
      * rewrite fmap_cons. apply not_elem_of_cons. split; [congruence | exact IH].
Qed.

Lemma add_names i (now : Q) s :
  names (add_discovered_instance i now s).1
  = if decide (i_name i ∈ names s) then names s else names s ++ [i_name i].
Proof.
  unfold add_discovered_instance, names.
  pose proof (replace_existing_cases (entry_of i now) (discovered_instances s)) as H.
  fold (entry_of i now).
  destruct (replace_existing (entry_of i now) (discovered_instances s)) as [l'|];
    cbn [fst discovered_instances] in *.
  - destruct H as (Hin & Hn & _). rewrite decide_True by exact Hin. exact Hn.
  - rewrite decide_False by exact H. rewrite fmap_app. reflexivity.
Qed.

Lemma act_names_NoDup (a : action) s : NoDup (names s) -> NoDup (names (act a s)).
Proof.
  intros Hnd. destruct a as [[[i|]|n|[i|]] now|n]; cbn [act on_service fst];
    try exact Hnd.
  - rewrite add_names. case_decide; [exact Hnd|].
    apply NoDup_app. split; [exact Hnd|]. split.
    + intros x Hx Hx'. apply list_elem_of_singleton in Hx'. congruence.
    + apply NoDup_singleton.
  - unfold names, remove_discovered_instance. cbn [fst discovered_instances].
    eapply sublist_NoDup; [exact Hnd | apply fmap_sublist, sublist_filter].
  - rewrite add_names. case_decide; [exact Hnd|].
    apply NoDup_app. split; [exact Hnd|]. split.
    + intros x Hx Hx'. apply list_elem_of_singleton in Hx'. congruence.
    + apply NoDup_singleton.
Qed.

(** X26. Whatever zeroconf reports and whatever the user hides, the list of
    discovered instances never holds two entries of the same name. *)
Theorem discovered_names_unique (acts : list action) :
  NoDup (name <$> discovered_instances (act_all acts init)).
Proof.
  change (NoDup (names (act_all acts init))).
  assert (H : forall s, NoDup (names s) -> NoDup (names (act_all acts s))).
  { induction acts as [|a acts IH]; intros s Hs; [exact Hs|].
    change (act_all (a :: acts) s) with (act_all acts (act a s)).
    apply IH, act_names_NoDup, Hs. }
  apply H. constructor.
Qed.


(** X28. A hidden instance is kept but not listed: after [hide_instance]
    the stored list is the same, [get_discovered_instances] has no entry
    of that name, and the entries of other names are listed as before. *)
Theorem hidden_instance_is_not_listed (n : string) (now : Q) s :
  let s' := (hide_instance n s).1 in
  discovered_instances s' = discovered_instances s
  /\ (forall v, v ∈ get_discovered_instances now s' -> name (v_instance v) <> n)
  /\ (forall v, name (v_instance v) <> n ->
        (v ∈ get_discovered_instances now s' <-> v ∈ get_discovered_instances now s)).
Proof.
  intros s'. split; [reflexivity|].
  unfold get_discovered_instances, s', hide_instance.
  cbn [fst discovered_instances hidden_instances]. split.
  - intros v Hv. apply list_elem_of_fmap in Hv as (e & -> & He).
    apply list_elem_of_filter in He as [Hn _]. cbn.
    rewrite elem_of_union, elem_of_singleton in Hn. tauto.
  - intros v Hv. split; intros H; apply list_elem_of_fmap in H as (e & -> & He);
      apply list_elem_of_fmap_2; apply list_elem_of_filter in He as [Hn He];
      apply list_elem_of_filter; (split; [|exact He]); cbn in Hv;
      rewrite elem_of_union, elem_of_singleton in *; tauto.
Qed.

(** [remove_discovered_instance] drops every entry of the name and keeps
    the others in their order; it does not touch the hidden names, so a
    hidden instance stays hidden until it is reported again. *)
Theorem removed_instance_is_gone (n : string) s :
  let s' := (remove_discovered_instance n s).1 in
  (n ∉ name <$> discovered_instances s')
  /\ discovered_instances s'
     = filter (fun e => name e <> n) (discovered_instances s)
  /\ (forall e, name e <> n ->
        (e ∈ discovered_instances s' <-> e ∈ discovered_instances s))
  /\ hidden_instances s' = hidden_instances s.
Proof.
  intros s'. unfold s', remove_discovered_instance.
  cbn [fst discovered_instances hidden_instances].
  split; [|split; [reflexivity | split; [|reflexivity]]].
  - intros Hin. apply list_elem_of_fmap in Hin as (e & He & Hf).
    apply list_elem_of_filter in Hf as [Hn _]. congruence.
  - intros e Hne. rewrite list_elem_of_filter. tauto.
Qed.


End FurtherApp.
